(** * Task mutation and audit-event pipeline

    A shallow embedding of [app/models.py], [app/schemas.py] and
    [app/routers/tasks.py], and the properties of the task mutation
    pipeline proved over it.

    Conventions of the embedding.
    - A SQLAlchemy [Session] is a pair of the session's current view of
      the database (rows loaded, added or modified, flushed or not) and
      the log of the states made durable by [db.commit()], oldest first.
    - An ORM object loaded by a route is held by the route (in a variable
      or in a dict); the route mutates it there, and the mutated object
      reaches its row of the view, under the key it was loaded from, when
      the session flushes at commit.  Rows of [tasks] are keyed by [id].
    - Integer columns are [Z], string columns [string], nullable columns
      [option]; [datetime] is a naive timestamp counted in microseconds.
    - Primary keys come from one sequence per table; a key is fixed when
      the row is handed to [db.add].  Queries see the rows added earlier
      in the same session (SQLAlchemy's autoflush), and string comparison
      in a filter is exact.
    - [db.commit()] is followed along the run in which the engine accepts
      the flush.  A flush the engine refuses (a constraint of
      [app/models.py] violated, an integer out of the range of its column)
      raises out of the route, which then returns nothing and commits
      nothing: what is stated of the value a route returns is stated of
      the runs that return it.
    - [db.refresh(obj)] reloads [obj] from its row, so the object a route
      returns is the row of the view.  The order in which a reloaded
      collection ([tags], [collaborators]) lists its members is the
      engine's: what is stated of a returned collection is stated of its
      members.
    - The server-set columns [created_at] / [updated_at] and the columns of
      [User] that the task routes never read are left out. *)

From stdpp Require Import gmap strings list pretty sorting.

Open Scope string_scope.
Open Scope list_scope.
Open Scope Z_scope.

(** ** Data model ([app/models.py]) *)

Definition datetime := Z.

Module User.
Record t := mk { id : Z; role : string }.
End User.

Module Tag.
Record t := mk { id : Z; name : string }.
End Tag.

Module Task.
Record t := mk {
  id : Z;
  title : string;
  description : option string;
  status : option string;
  priority : option string;
  due_date : option datetime;
  created_by_id : Z;
  assignee_id : option Z;
  parent_id : option Z;
  tags : list Tag.t;
  collaborators : list User.t
}.
End Task.

Module TaskDependency.
Record t := mk { id : Z; task_id : Z; depends_on_id : Z }.
End TaskDependency.

Module TaskEvent.
Record t := mk {
  id : Z;
  task_id : Z;
  user_id : option Z;
  event_type : string;
  field : option string;
  old_value : option string;
  new_value : option string
}.
End TaskEvent.

Module TaskStatusEnum.
Definition TODO := "todo".
Definition IN_PROGRESS := "in_progress".
Definition DONE := "done".
Definition BLOCKED := "blocked".
Definition members : list string := [TODO; IN_PROGRESS; DONE; BLOCKED].
End TaskStatusEnum.

Module TaskPriorityEnum.
Definition LOW := "low".
Definition MEDIUM := "medium".
Definition HIGH := "high".
Definition members : list string := [LOW; MEDIUM; HIGH].
End TaskPriorityEnum.

#[global] Instance User_eq_dec : EqDecision User.t.
Proof. solve_decision. Defined.
#[global] Instance Tag_eq_dec : EqDecision Tag.t.
Proof. solve_decision. Defined.
#[global] Instance Task_eq_dec : EqDecision Task.t.
Proof. solve_decision. Defined.
#[global] Instance TaskDependency_eq_dec : EqDecision TaskDependency.t.
Proof. solve_decision. Defined.
#[global] Instance TaskEvent_eq_dec : EqDecision TaskEvent.t.
Proof. solve_decision. Defined.

(** ** Request payloads ([app/schemas.py]) *)

(** What a JSON body says about one key of a payload. *)
Inductive json_field (A : Type) :=
  | Absent
  | Null
  | Present (a : A).
Arguments Absent {A}.
Arguments Null {A}.
Arguments Present {A} a.

(** An [Optional[...] = None] attribute of a pydantic model: an absent key
    takes the default [None], an explicit null is [None]. *)
Definition optional {A} (j : json_field A) : option A :=
  match j with
  | Absent => None
  | Null => None
  | Present a => Some a
  end.

Module TaskBase.
Record t := mk {
  title : option string;
  description : option string;
  status : option string;
  priority : option string;
  due_date : option datetime;
  assignee_id : option Z;
  parent_id : option Z;
  tag_names : option (list string);
  collaborator_ids : option (list Z)
}.
End TaskBase.

(** [class TaskUpdate(TaskBase): pass] *)
Module TaskUpdate.
Definition t := TaskBase.t.

(** The body of a PATCH request, key by key. *)
Record json := mk_json {
  j_title : json_field string;
  j_description : json_field string;
  j_status : json_field string;
  j_priority : json_field string;
  j_due_date : json_field datetime;
  j_assignee_id : json_field Z;
  j_parent_id : json_field Z;
  j_tag_names : json_field (list string);
  j_collaborator_ids : json_field (list Z)
}.

Definition parse (j : json) : t :=
  TaskBase.mk (optional (j_title j)) (optional (j_description j))
    (optional (j_status j)) (optional (j_priority j))
    (optional (j_due_date j)) (optional (j_assignee_id j))
    (optional (j_parent_id j)) (optional (j_tag_names j))
    (optional (j_collaborator_ids j)).
End TaskUpdate.

(** [class TaskCreate(TaskBase): title: str] *)
Module TaskCreate.
Record t := mk {
  title : string;
  description : option string;
  status : option string;
  priority : option string;
  due_date : option datetime;
  assignee_id : option Z;
  parent_id : option Z;
  tag_names : option (list string);
  collaborator_ids : option (list Z)
}.
End TaskCreate.

Module BulkTaskUpdateItem.
Record t := mk {
  id : Z;
  status : option string;
  priority : option string;
  assignee_id : option Z
}.

(** A [schemas.TaskUpdate] built from the keyword arguments
    [item.model_dump()]: the keys [status], [priority] and [assignee_id]
    are taken over, the extra key [id] is ignored, every other attribute
    keeps its default [None]. *)
Definition to_TaskUpdate (item : t) : TaskUpdate.t :=
  TaskBase.mk None None (status item) (priority item) None
    (assignee_id item) None None None.
End BulkTaskUpdateItem.

(** ** The database and the session *)

Record DB := mkDB {
  users : list User.t;
  tasks : gmap Z Task.t;
  tags : list Tag.t;
  task_dependencies : list TaskDependency.t;
  task_events : list TaskEvent.t;
  task_seq : Z;
  tag_seq : Z;
  dependency_seq : Z;
  event_seq : Z
}.

Record Session := mkSession {
  view : DB;
  commits : list DB
}.

Definition open_session (d : DB) : Session := mkSession d [].

(** [db.commit()] *)
Definition db_commit (db : Session) : Session :=
  mkSession (view db) (commits db ++ [view db]).

(** [db.query(models.Task).filter(models.Task.id == task_id).first()] *)
Definition query_task (db : Session) (task_id : Z) : option Task.t :=
  tasks (view db) !! task_id.

(** [db.query(models.Tag).filter(models.Tag.name == name).first()] *)
Definition query_tag (db : Session) (name : string) : option Tag.t :=
  find (λ tag, bool_decide (Tag.name tag = name)) (tags (view db)).

(** [db.query(models.User).filter(models.User.id.in_(ids)).all()] *)
Definition query_users_in (db : Session) (ids : list Z) : list User.t :=
  filter (λ u, User.id u ∈ ids) (users (view db)).

(** [db.add(models.Tag(name=name))], returning the tag with its key. *)
Definition add_tag (name : string) (db : Session) : Tag.t * Session :=
  let d := view db in
  let tag := Tag.mk (tag_seq d) name in
  (tag,
   mkSession
     (mkDB (users d) (tasks d) (tags d ++ [tag]) (task_dependencies d)
        (task_events d) (task_seq d) (tag_seq d + 1) (dependency_seq d)
        (event_seq d))
     (commits db)).

(** [db.add(models.TaskEvent(...))] *)
Definition add_event (task_id : Z) (user_id : option Z) (event_type : string)
    (field old_value new_value : option string) (db : Session) : Session :=
  let d := view db in
  let event :=
    TaskEvent.mk (event_seq d) task_id user_id event_type field old_value
      new_value in
  mkSession
    (mkDB (users d) (tasks d) (tags d) (task_dependencies d)
       (task_events d ++ [event]) (task_seq d) (tag_seq d) (dependency_seq d)
       (event_seq d + 1))
    (commits db).

(** [db.add(models.TaskDependency(task_id=..., depends_on_id=...))] *)
Definition add_dependency_row (task_id depends_on_id : Z) (db : Session)
    : Session :=
  let d := view db in
  let dep := TaskDependency.mk (dependency_seq d) task_id depends_on_id in
  mkSession
    (mkDB (users d) (tasks d) (tags d) (task_dependencies d ++ [dep])
       (task_events d) (task_seq d) (tag_seq d) (dependency_seq d + 1)
       (event_seq d))
    (commits db).

(** Flush of one task object: it reaches the [tasks] table under the key
    of its row. *)
Definition put_task (key : Z) (task : Task.t) (db : Session) : Session :=
  let d := view db in
  mkSession
    (mkDB (users d) (<[key := task]> (tasks d)) (tags d)
       (task_dependencies d) (task_events d) (task_seq d) (tag_seq d)
       (dependency_seq d) (event_seq d))
    (commits db).

(** Flush of the task objects held in a dict. *)
Definition put_tasks (objects : gmap Z Task.t) (db : Session) : Session :=
  let d := view db in
  mkSession
    (mkDB (users d) (objects ∪ tasks d) (tags d)
       (task_dependencies d) (task_events d) (task_seq d) (tag_seq d)
       (dependency_seq d) (event_seq d))
    (commits db).

(** [db.add(task)] for a new task: the row takes the next key of the
    sequence, which becomes the task's [id]. *)
Definition add_task (new_task : Z → Task.t) (db : Session)
    : Task.t * Session :=
  let d := view db in
  let task := new_task (task_seq d) in
  (task,
   mkSession
     (mkDB (users d) (<[task_seq d := task]> (tasks d)) (tags d)
        (task_dependencies d) (task_events d) (task_seq d + 1) (tag_seq d)
        (dependency_seq d) (event_seq d))
     (commits db)).

(** [db.query(models.Task).filter(models.Task.id.in_(task_ids)).all()],
    as the dict [{t.id: t for t in tasks}] built from it. *)
Definition query_tasks_by_id (db : Session) (task_ids : list Z)
    : gmap Z Task.t :=
  filter (λ kt, kt.1 ∈ task_ids) (tasks (view db)).

(** The query of [add_dependency] for the pair, [.first()]. *)
Definition query_dependency (db : Session) (task_id depends_on_id : Z)
    : option TaskDependency.t :=
  find
    (λ dep,
      bool_decide (TaskDependency.task_id dep = task_id) &&
      bool_decide (TaskDependency.depends_on_id dep = depends_on_id))
    (task_dependencies (view db)).

(** ** Responses *)

Module HTTPException.
Record t := mk { status_code : Z; detail : string }.
End HTTPException.

#[global] Instance HTTPException_eq_dec : EqDecision HTTPException.t.
Proof. solve_decision. Defined.

(** A route either raises an [HTTPException] or returns its value. *)
Definition response (A : Type) : Type := HTTPException.t + A.

(** The error kinds of the taxonomy, by status code. *)
Definition NotFound : Z := 404.
Definition Forbidden : Z := 403.
Definition Validation : Z := 400.

Definition fails_with {A} (kind : Z) (r : response A) : Prop :=
  match r with
  | inl e => HTTPException.status_code e = kind
  | inr _ => False
  end.

#[global] Instance fails_with_dec {A} kind (r : response A)
  : Decision (fails_with kind r).
Proof. destruct r; simpl; apply _. Defined.

(** ** Attribute access and stringification *)

(** The Python values a task attribute or a payload attribute can hold on
    the update path; [None] is the [None] of [option value]. *)
Inductive value :=
  | VStr (s : string)
  | VInt (n : Z)
  | VDate (d : datetime).

#[global] Instance value_eq_dec : EqDecision value.
Proof. solve_decision. Defined.

(** The attributes [_apply_task_updates] patches through [set_attr]. *)
Inductive attr :=
  | attr_title
  | attr_description
  | attr_status
  | attr_priority
  | attr_due_date
  | attr_assignee_id
  | attr_parent_id.

#[global] Instance attr_eq_dec : EqDecision attr.
Proof. solve_decision. Defined.

Definition all_attrs : list attr :=
  [attr_title; attr_description; attr_status; attr_priority; attr_due_date;
   attr_assignee_id; attr_parent_id].

Definition attr_name (a : attr) : string :=
  match a with
  | attr_title => "title"
  | attr_description => "description"
  | attr_status => "status"
  | attr_priority => "priority"
  | attr_due_date => "due_date"
  | attr_assignee_id => "assignee_id"
  | attr_parent_id => "parent_id"
  end.

(** [getattr(task, field)] *)
Definition getattr (task : Task.t) (field : attr) : option value :=
  match field with
  | attr_title => Some (VStr (Task.title task))
  | attr_description => VStr <$> Task.description task
  | attr_status => VStr <$> Task.status task
  | attr_priority => VStr <$> Task.priority task
  | attr_due_date => VDate <$> Task.due_date task
  | attr_assignee_id => VInt <$> Task.assignee_id task
  | attr_parent_id => VInt <$> Task.parent_id task
  end.

(** [setattr(task, field, value)], for the values the typed payload can
    carry in that attribute. *)
Definition setattr (task : Task.t) (field : attr) (v : value) : Task.t :=
  let '(Task.mk i ti de st pr du cr asg pa tg co) := task in
  match field, v with
  | attr_title, VStr s => Task.mk i s de st pr du cr asg pa tg co
  | attr_description, VStr s => Task.mk i ti (Some s) st pr du cr asg pa tg co
  | attr_status, VStr s => Task.mk i ti de (Some s) pr du cr asg pa tg co
  | attr_priority, VStr s => Task.mk i ti de st (Some s) du cr asg pa tg co
  | attr_due_date, VDate d => Task.mk i ti de st pr (Some d) cr asg pa tg co
  | attr_assignee_id, VInt n => Task.mk i ti de st pr du cr (Some n) pa tg co
  | attr_parent_id, VInt n => Task.mk i ti de st pr du cr asg (Some n) tg co
  | _, _ => task
  end.

(** The attribute of the payload that [_apply_task_updates] passes to
    [set_attr] for a task attribute. *)
Definition data_attr (data : TaskUpdate.t) (field : attr) : option value :=
  match field with
  | attr_title => VStr <$> TaskBase.title data
  | attr_description => VStr <$> TaskBase.description data
  | attr_status => VStr <$> TaskBase.status data
  | attr_priority => VStr <$> TaskBase.priority data
  | attr_due_date => VDate <$> TaskBase.due_date data
  | attr_assignee_id => VInt <$> TaskBase.assignee_id data
  | attr_parent_id => VInt <$> TaskBase.parent_id data
  end.

(** [task.tags.clear()] followed by the appends, and likewise for the
    collaborators: the collection attribute is replaced. *)
Definition set_tags (task : Task.t) (tg : list Tag.t) : Task.t :=
  let '(Task.mk i ti de st pr du cr asg pa _ co) := task in
  Task.mk i ti de st pr du cr asg pa tg co.

Definition set_collaborators (task : Task.t) (co : list User.t) : Task.t :=
  let '(Task.mk i ti de st pr du cr asg pa tg _) := task in
  Task.mk i ti de st pr du cr asg pa tg co.

(** An entry of [changed_fields]: [(field, old, new)]. *)
Definition change : Type := string * option value * option value.

(** [",".join(names)] *)
Definition join (sep : string) (l : list string) : string :=
  String.concat sep l.

Section Pipeline.

(** [str] on a [datetime] belongs to the Python standard library. *)
Variable str_datetime : datetime → string.

(** [str(v)] *)
Definition py_str (v : value) : string :=
  match v with
  | VStr s => s
  | VInt n => pretty n
  | VDate d => str_datetime d
  end.

(** ** [_apply_task_updates] *)

(** The closure [set_attr]; the task and [changed_fields] it captures
    are threaded through. *)
Definition set_attr (field : attr) (v : option value)
    (st : Task.t * list change) : Task.t * list change :=
  let '(task, changed_fields) := st in
  let old := getattr task field in
  match v with
  | Some new =>
      if decide (Some new ≠ old)
      then (setattr task field new,
            changed_fields ++ [(attr_name field, old, Some new)])
      else st
  | None => st
  end.

(** The seven calls of [set_attr], in the order of the source. *)
Definition apply_scalars (task : Task.t) (data : TaskUpdate.t)
    : Task.t * list change :=
  let st := (task, []) in
  let st := set_attr attr_title (data_attr data attr_title) st in
  let st := set_attr attr_description (data_attr data attr_description) st in
  let st := set_attr attr_status (data_attr data attr_status) st in
  let st := set_attr attr_priority (data_attr data attr_priority) st in
  let st := set_attr attr_due_date (data_attr data attr_due_date) st in
  let st := set_attr attr_assignee_id (data_attr data attr_assignee_id) st in
  set_attr attr_parent_id (data_attr data attr_parent_id) st.

(** The loop [for name in tag_names]: look the tag up, create it when
    there is none, append it to [task.tags]. *)
Fixpoint resolve_tags (names : list string) (acc : list Tag.t)
    (db : Session) : list Tag.t * Session :=
  match names with
  | [] => (acc, db)
  | name :: rest =>
      match query_tag db name with
      | Some tag => resolve_tags rest (acc ++ [tag]) db
      | None =>
          let '(tag, db) := add_tag name db in
          resolve_tags rest (acc ++ [tag]) db
      end
  end.

(** [if data.tag_names is not None: ...] *)
Definition apply_tags (data : TaskUpdate.t)
    (st : Task.t * list change * Session) : Task.t * list change * Session :=
  let '(task, changed_fields, db) := st in
  match TaskBase.tag_names data with
  | Some tag_names =>
      let '(tg, db) := resolve_tags tag_names [] db in
      (set_tags task tg,
       changed_fields ++ [("tags", None, Some (VStr (join "," tag_names)))],
       db)
  | None => st
  end.

(** [if data.collaborator_ids is not None: ...]; the query runs only for
    a non-empty list. *)
Definition apply_collaborators (data : TaskUpdate.t)
    (st : Task.t * list change * Session) : Task.t * list change * Session :=
  let '(task, changed_fields, db) := st in
  match TaskBase.collaborator_ids data with
  | Some collaborator_ids =>
      let co :=
        match collaborator_ids with
        | [] => []
        | _ :: _ => query_users_in db collaborator_ids
        end in
      (set_collaborators task co,
       changed_fields ++
         [("collaborators", None,
           Some (VStr (join "," (pretty <$> collaborator_ids))))],
       db)
  | None => st
  end.

(** Lines 15-52: the task after the patch, [changed_fields], and the
    session with the tags that were created. *)
Definition compute_changes (task : Task.t) (data : TaskUpdate.t)
    (db : Session) : Task.t * list change * Session :=
  let '(task, changed_fields) := apply_scalars task data in
  apply_collaborators data (apply_tags data (task, changed_fields, db)).

(** Lines 54-63: one [update] event per entry of [changed_fields]. *)
Definition record_changes (task : Task.t) (user_id : Z)
    (changed_fields : list change) (db : Session) : Session :=
  foldl
    (λ db '(field, old, new),
      add_event (Task.id task) (Some user_id) "update" (Some field)
        (py_str <$> old) (py_str <$> new) db)
    db changed_fields.

Definition _apply_task_updates (task : Task.t) (data : TaskUpdate.t)
    (db : Session) (user_id : Z) : Task.t * Session :=
  let '(task, changed_fields, db) := compute_changes task data db in
  (task, record_changes task user_id changed_fields db).

End Pipeline.

(** ** The routes ([app/routers/tasks.py]) *)

(** [x or default] on an optional string: [None] and the empty string are
    falsy. *)
Definition or_default (x : option string) (default : string) : string :=
  match x with
  | Some s => if decide (s = "") then default else s
  | None => default
  end.

(** The test both [update_task] and [bulk_update_tasks] spell out:
    [role not in ("admin", "manager") and
     id not in (task.created_by_id, task.assignee_id)]. *)
Definition update_denied (current_user : User.t) (task : Task.t) : bool :=
  bool_decide (User.role current_user ∉ ["admin"; "manager"]) &&
  bool_decide
    (Some (User.id current_user) ∉
       [Some (Task.created_by_id task); Task.assignee_id task]).

(** The test of [delete_task]:
    [role not in ("admin", "manager") and id != task.created_by_id]. *)
Definition delete_denied (current_user : User.t) (task : Task.t) : bool :=
  bool_decide (User.role current_user ∉ ["admin"; "manager"]) &&
  bool_decide (User.id current_user ≠ Task.created_by_id task).

Section Routes.

Variable str_datetime : datetime → string.

(** What [db.delete(task)] followed by the flush of [db.commit()] does
    to the view is decided by the ORM mapping and the storage engine:
    the rows that go with the task, or [None] when the engine refuses
    the deletion. *)
Variable delete_rows : DB → Task.t → option DB.

Definition create_task (task_in : TaskCreate.t) (db : Session)
    (current_user : User.t) : Session * response Task.t :=
  let new_task tg co id :=
    Task.mk id
      (TaskCreate.title task_in)
      (TaskCreate.description task_in)
      (Some (or_default (TaskCreate.status task_in) TaskStatusEnum.TODO))
      (Some
         (or_default (TaskCreate.priority task_in) TaskPriorityEnum.MEDIUM))
      (TaskCreate.due_date task_in)
      (User.id current_user)
      (TaskCreate.assignee_id task_in)
      (TaskCreate.parent_id task_in)
      tg co in
  let '(tg, db) :=
    match TaskCreate.tag_names task_in with
    | Some (name :: rest) => resolve_tags (name :: rest) [] db
    | _ => ([], db)
    end in
  let co :=
    match TaskCreate.collaborator_ids task_in with
    | Some (i :: rest) => query_users_in db (i :: rest)
    | _ => []
    end in
  let '(task, db) := add_task (new_task tg co) db in
  let db := db_commit db in
  let db :=
    add_event (Task.id task) (Some (User.id current_user)) "create" None
      None None db in
  let db := db_commit db in
  (db, inr task).

Definition update_task (task_id : Z) (task_in : TaskUpdate.t) (db : Session)
    (current_user : User.t) : Session * response Task.t :=
  match query_task db task_id with
  | None => (db, inl (HTTPException.mk 404 "Task not found"))
  | Some task =>
      if update_denied current_user task
      then (db, inl (HTTPException.mk 403 "Not allowed to update this task"))
      else
        let '(task, db) :=
          _apply_task_updates str_datetime task task_in db
            (User.id current_user) in
        let db := db_commit (put_task task_id task db) in
        (db, inr task)
  end.

Definition delete_task (task_id : Z) (db : Session) (current_user : User.t)
    : Session * response unit :=
  match query_task db task_id with
  | None => (db, inl (HTTPException.mk 404 "Task not found"))
  | Some task =>
      if delete_denied current_user task
      then (db, inl (HTTPException.mk 403 "Not allowed to delete this task"))
      else
        match delete_rows (view db) task with
        | Some d => (db_commit (mkSession d (commits db)), inr ())
        | None => (db, inl (HTTPException.mk 500 "Internal Server Error"))
        end
  end.

(** The body of the loop of [bulk_update_tasks]; [updated] holds the
    keys of the objects appended to it. *)
Definition bulk_step (current_user : User.t)
    (st : gmap Z Task.t * list Z * Session) (item : BulkTaskUpdateItem.t)
    : gmap Z Task.t * list Z * Session :=
  let '(tasks_by_id, updated, db) := st in
  match tasks_by_id !! BulkTaskUpdateItem.id item with
  | None => st
  | Some task =>
      if update_denied current_user task then st
      else
        let data := BulkTaskUpdateItem.to_TaskUpdate item in
        let '(task, db) :=
          _apply_task_updates str_datetime task data db
            (User.id current_user) in
        (<[BulkTaskUpdateItem.id item := task]> tasks_by_id,
         updated ++ [BulkTaskUpdateItem.id item], db)
  end.

Definition bulk_update_tasks (items : list BulkTaskUpdateItem.t)
    (db : Session) (current_user : User.t)
    : Session * response (list Task.t) :=
  let task_ids := BulkTaskUpdateItem.id <$> items in
  let tasks_by_id := query_tasks_by_id db task_ids in
  let '(tasks_by_id, updated, db) :=
    foldl (bulk_step current_user) (tasks_by_id, [], db) items in
  let db := db_commit (put_tasks tasks_by_id db) in
  (db, inr (omap (λ key, tasks_by_id !! key) updated)).

Definition add_dependency (task_id depends_on_id : Z) (db : Session)
    (current_user : User.t) : Session * response string :=
  if decide (task_id = depends_on_id)
  then (db, inl (HTTPException.mk 400 "Task cannot depend on itself"))
  else
    match query_task db task_id, query_task db depends_on_id with
    | Some _, Some _ =>
        match query_dependency db task_id depends_on_id with
        | Some _ => (db, inr "Dependency already exists")
        | None =>
            let db := add_dependency_row task_id depends_on_id db in
            let db := db_commit db in
            let db :=
              add_event task_id (Some (User.id current_user))
                "add_dependency" (Some "depends_on") None
                (Some (pretty depends_on_id)) db in
            let db := db_commit db in
            (db, inr "Dependency added")
        end
    | _, _ => (db, inl (HTTPException.mk 404 "Task not found"))
    end.

End Routes.

(** ** Observations used by the statements *)

(** What may stand in an attribute: a string where the column is a string,
    an integer for the two references, a timestamp for [due_date]. *)
Definition typed (field : attr) (v : value) : Prop :=
  match field, v with
  | (attr_title | attr_description | attr_status | attr_priority), VStr _ =>
      True
  | attr_due_date, VDate _ => True
  | (attr_assignee_id | attr_parent_id), VInt _ => True
  | _, _ => False
  end.

(** The entries of [changed_fields] that come from the two relations of a
    payload. *)
Definition relation_changes (data : TaskUpdate.t) : list change :=
  match TaskBase.tag_names data with
  | Some tag_names => [("tags", None, Some (VStr (join "," tag_names)))]
  | None => []
  end ++
  match TaskBase.collaborator_ids data with
  | Some collaborator_ids =>
      [("collaborators", None,
        Some (VStr (join "," (pretty <$> collaborator_ids))))]
  | None => []
  end.

(** The [update] events a database holds. *)
Definition update_events (d : DB) : list TaskEvent.t :=
  filter (λ e, TaskEvent.event_type e = "update") (task_events d).

(** The [create] events of a task. *)
Definition create_events (d : DB) (task_id : Z) : list TaskEvent.t :=
  filter
    (λ e, TaskEvent.task_id e = task_id ∧ TaskEvent.event_type e = "create")
    (task_events d).

(** The [TaskDependency] rows of a pair. *)
Definition dependency_rows (d : DB) (task_id depends_on_id : Z)
    : list TaskDependency.t :=
  filter
    (λ dep,
      TaskDependency.task_id dep = task_id ∧
      TaskDependency.depends_on_id dep = depends_on_id)
    (task_dependencies d).

(** The [add_dependency] events of a pair. *)
Definition dependency_events (d : DB) (task_id depends_on_id : Z)
    : list TaskEvent.t :=
  filter
    (λ e,
      TaskEvent.task_id e = task_id ∧
      TaskEvent.event_type e = "add_dependency" ∧
      TaskEvent.new_value e = Some (pretty depends_on_id))
    (task_events d).

(** The update rule of the Access Guard. *)
Definition may_update (actor : User.t) (task : Task.t) : Prop :=
  User.role actor = "admin" ∨ User.role actor = "manager" ∨
  User.id actor = Task.created_by_id task ∨
  Some (User.id actor) = Task.assignee_id task.

(** The delete rule of the Access Guard. *)
Definition may_delete (actor : User.t) (task : Task.t) : Prop :=
  User.role actor = "admin" ∨ User.role actor = "manager" ∨
  User.id actor = Task.created_by_id task.

(** The attribute a payload asks for: its own value when it carries one,
    the current one otherwise. *)
Definition patched (data : TaskUpdate.t) (task : Task.t) (field : attr)
    : option value :=
  match data_attr data field with
  | Some v => Some v
  | None => getattr task field
  end.

(** A session after the tags [new] were added to it. *)
Definition extend_tags (new : list Tag.t) (db : Session) : Session :=
  let d := view db in
  mkSession
    (mkDB (users d) (tasks d) (tags d ++ new) (task_dependencies d)
       (task_events d) (task_seq d) (tag_seq d + Z.of_nat (length new))
       (dependency_seq d) (event_seq d))
    (commits db).

(** The [update] event recorded for an entry of [changed_fields], with
    the key it takes. *)
Definition update_event (str_datetime : datetime → string) (task : Task.t)
    (user_id : Z) (key : Z) (c : change) : TaskEvent.t :=
  TaskEvent.mk key (Task.id task) (Some user_id) "update" (Some c.1.1)
    (py_str str_datetime <$> c.1.2) (py_str str_datetime <$> c.2).

(** A session after the events [new] were added to it. *)
Definition extend_events (new : list TaskEvent.t) (db : Session) : Session :=
  let d := view db in
  mkSession
    (mkDB (users d) (tasks d) (tags d) (task_dependencies d)
       (task_events d ++ new) (task_seq d) (tag_seq d) (dependency_seq d)
       (event_seq d + Z.of_nat (length new)))
    (commits db).

(** The collaborators a task holds after a payload was applied: the users
    the query finds for the ids of the payload, when it carries them. *)
Definition collaborators_after (data : TaskUpdate.t) (db : Session)
    (task : Task.t) : list User.t :=
  match TaskBase.collaborator_ids data with
  | Some collaborator_ids => query_users_in db collaborator_ids
  | None => Task.collaborators task
  end.

(** The body of a PATCH request with one key forced to [how], which is
    [Absent] or [Null]. *)
Definition clear_key (field : attr) (how : ∀ A, json_field A)
    (j : TaskUpdate.json) : TaskUpdate.json :=
  let '(TaskUpdate.mk_json ti de st pr du asg pa tn co) := j in
  match field with
  | attr_title => TaskUpdate.mk_json (how _) de st pr du asg pa tn co
  | attr_description => TaskUpdate.mk_json ti (how _) st pr du asg pa tn co
  | attr_status => TaskUpdate.mk_json ti de (how _) pr du asg pa tn co
  | attr_priority => TaskUpdate.mk_json ti de st (how _) du asg pa tn co
  | attr_due_date => TaskUpdate.mk_json ti de st pr (how _) asg pa tn co
  | attr_assignee_id => TaskUpdate.mk_json ti de st pr du (how _) pa tn co
  | attr_parent_id => TaskUpdate.mk_json ti de st pr du asg (how _) tn co
  end.

(** ** A small database for the examples *)

(** Timestamps are rendered as their count in the examples. *)
Definition epoch_str : datetime → string := pretty.

Definition ann : User.t := User.mk 1 "member".
Definition bob : User.t := User.mk 2 "admin".
Definition cyd : User.t := User.mk 3 "member".
Definition dan : User.t := User.mk 4 "member".
Definition eve : User.t := User.mk 5 "manager".

(** Task 1 was created by ann and is assigned to cyd; task 2 was created
    by cyd. *)
Definition ship_release : Task.t :=
  Task.mk 1 "Ship release" (Some "cut the branch") (Some "todo")
    (Some "medium") (Some 1700000000) 1 (Some 3) None
    [Tag.mk 1 "urgent"] [cyd].

Definition write_notes : Task.t :=
  Task.mk 2 "Write notes" None (Some "todo") (Some "low") None 3 None
    (Some 1) [] [].

Definition create_event_of (key task_id user_id : Z) : TaskEvent.t :=
  TaskEvent.mk key task_id (Some user_id) "create" None None None.

Definition office : DB :=
  mkDB [ann; bob; cyd; dan; eve]
    {[ 1 := ship_release; 2 := write_notes ]}
    [Tag.mk 1 "urgent"] []
    [create_event_of 1 1 1; create_event_of 2 2 3]
    3 2 1 3.

Definition empty_db : DB := mkDB [ann; bob] ∅ [] [] [] 1 1 1 1.

Definition no_patch : TaskUpdate.t :=
  TaskBase.mk None None None None None None None None None.

Definition retag : TaskUpdate.t :=
  TaskBase.mk None None None None None None None
    (Some ["urgent"; "release"]) None.

Definition bogus_status : TaskUpdate.t :=
  TaskBase.mk (Some "Ship it") None (Some "bogus") None None None None None
    None.

Definition invite : TaskUpdate.t :=
  TaskBase.mk None None None None None None None (Some ["Urgent"; "urgent"])
    (Some [2; 9; 3]).

Definition release_input : TaskCreate.t :=
  TaskCreate.mk "Ship release" None None None None None None
    (Some ["urgent"; "release"]) (Some [2; 9]).

(** A session whose [tasks] table is replaced by [m]. *)
Definition with_tasks (m : gmap Z Task.t) (db : Session) : Session :=
  let d := view db in
  mkSession
    (mkDB (users d) m (tags d) (task_dependencies d) (task_events d)
       (task_seq d) (tag_seq d) (dependency_seq d) (event_seq d))
    (commits db).

(** The Bulk Update Coordinator in the words of its specification: for
    each item in turn, resolve the task in the session; skip the item when
    there is none or when the Access Guard denies the update; otherwise
    apply the patch and its audit events to the task, and list its id.
    The ids come out in the order the items are processed. *)
Fixpoint bulk_update_spec (str_datetime : datetime → string) (actor : User.t)
    (items : list BulkTaskUpdateItem.t) (db : Session) : list Z * Session :=
  match items with
  | [] => ([], db)
  | item :: rest =>
      let task_id := BulkTaskUpdateItem.id item in
      match query_task db task_id with
      | None => bulk_update_spec str_datetime actor rest db
      | Some task =>
          if decide (may_update actor task)
          then
            let '(task', db') :=
              _apply_task_updates str_datetime task
                (BulkTaskUpdateItem.to_TaskUpdate item) db (User.id actor) in
            let '(ids, db'') :=
              bulk_update_spec str_datetime actor rest
                (put_task task_id task' db') in
            (task_id :: ids, db'')
          else bulk_update_spec str_datetime actor rest db
      end
  end.

Definition reassign (task_id : Z) (assignee : Z) : BulkTaskUpdateItem.t :=
  BulkTaskUpdateItem.mk task_id None None (Some assignee).

Definition set_status (task_id : Z) (status : string)
    : BulkTaskUpdateItem.t :=
  BulkTaskUpdateItem.mk task_id (Some status) None None.

(** The ids of the items of a batch whose task resolves. *)
Definition resolving_ids (db : Session) (items : list BulkTaskUpdateItem.t)
    : list Z :=
  filter (λ k, is_Some (query_task db k)) (BulkTaskUpdateItem.id <$> items).

(** The value a list of items asks for an attribute of the task [task_id]:
    the one of the last item that names the task and carries the
    attribute. *)
Fixpoint last_supplied (field : attr) (task_id : Z)
    (items : list BulkTaskUpdateItem.t) : option value :=
  match items with
  | [] => None
  | item :: rest =>
      match last_supplied field task_id rest with
      | Some v => Some v
      | None =>
          if decide (BulkTaskUpdateItem.id item = task_id)
          then data_attr (BulkTaskUpdateItem.to_TaskUpdate item) field
          else None
      end
  end.

(** An actor who may update [task] whoever it is assigned to: no item of
    a batch can take the right away. *)
Definition may_always_update (actor : User.t) (task : Task.t) : Prop :=
  User.role actor = "admin" ∨ User.role actor = "manager" ∨
  User.id actor = Task.created_by_id task.

(** An item of a batch that carries no value. *)
Definition touch (task_id : Z) : BulkTaskUpdateItem.t :=
  BulkTaskUpdateItem.mk task_id None None None.

(** The pairs of a database are in step when each has as many
    [TaskDependency] rows as [add_dependency] events, and at most one. *)
Definition dependencies_in_step (d : DB) : Prop :=
  ∀ task_id depends_on_id,
    length (dependency_rows d task_id depends_on_id) =
      length (dependency_events d task_id depends_on_id) ∧
    (length (dependency_rows d task_id depends_on_id) ≤ 1)%nat.

(** ** The read routes of [app/routers/tasks.py] *)

(** [db.query(models.Task)....all()]: the rows of the table.  None of the
    queries below has an ORDER BY, so the order of a result is the
    engine's; a query for one entity returns each row once. *)
Definition all_tasks (db : Session) : list Task.t :=
  (map_to_list (tasks (view db))).*2.

Definition get_task (task_id : Z) (db : Session) (current_user : User.t)
    : response Task.t :=
  match query_task db task_id with
  | None => inl (HTTPException.mk 404 "Task not found")
  | Some task => inr task
  end.

Definition list_dependencies (task_id : Z) (db : Session)
    (current_user : User.t) : list Z :=
  let deps :=
    filter (λ dep, TaskDependency.task_id dep = task_id)
      (task_dependencies (view db)) in
  TaskDependency.depends_on_id <$> deps.

(** [column.in_(values)] in a filter: not true for a NULL column. *)
Definition sql_in `{EqDecision A} (column : option A) (values : list A)
    : bool :=
  match column with
  | Some x => bool_decide (x ∈ values)
  | None => false
  end.

(** [column >= bound] and [column <= bound] in a filter: not true for a
    NULL column. *)
Definition sql_ge (column : option datetime) (bound : datetime) : bool :=
  match column with
  | Some x => bool_decide (bound ≤ x)
  | None => false
  end.

Definition sql_le (column : option datetime) (bound : datetime) : bool :=
  match column with
  | Some x => bool_decide (x ≤ bound)
  | None => false
  end.

(** [if xs: conditions.append(make(xs))] for an optional list: [None] and
    the empty list are falsy. *)
Definition append_if_list {A C} (xs : option (list A)) (make : list A → C)
    (conditions : list C) : list C :=
  match xs with
  | Some (x :: rest) => conditions ++ [make (x :: rest)]
  | _ => conditions
  end.

(** [if x: conditions.append(make(x))] for an optional [datetime], which
    is falsy only when it is [None]. *)
Definition append_if_some {A C} (x : option A) (make : A → C)
    (conditions : list C) : list C :=
  match x with
  | Some a => conditions ++ [make a]
  | None => conditions
  end.

Section Reads.

(** The column [created_at] of a task, which [Task.t] leaves out: it is
    set when the row is inserted and never written again, so it is a
    function of the key of the row. *)
Variable task_created_at : Z → datetime.

Definition list_tasks (db : Session) (current_user : User.t)
    (status_in priority_in : option (list string))
    (assignee_id_in : option (list Z)) (tag_in : option (list string))
    (created_from created_to due_from due_to : option datetime)
    : list Task.t :=
  let q := all_tasks db in
  let conditions : list (Task.t → bool) := [] in
  let conditions :=
    append_if_list status_in (λ l t, sql_in (Task.status t) l) conditions in
  let conditions :=
    append_if_list priority_in (λ l t, sql_in (Task.priority t) l)
      conditions in
  let conditions :=
    append_if_list assignee_id_in (λ l t, sql_in (Task.assignee_id t) l)
      conditions in
  let conditions :=
    append_if_some created_from
      (λ d t, bool_decide (d ≤ task_created_at (Task.id t))) conditions in
  let conditions :=
    append_if_some created_to
      (λ d t, bool_decide (task_created_at (Task.id t) ≤ d)) conditions in
  let conditions :=
    append_if_some due_from (λ d t, sql_ge (Task.due_date t) d) conditions in
  let conditions :=
    append_if_some due_to (λ d t, sql_le (Task.due_date t) d) conditions in
  let q :=
    match conditions with
    | [] => q
    | _ :: _ => filter (λ t, forallb (λ c, c t) conditions = true) q
    end in
  match tag_in with
  | Some (name :: rest) =>
      filter
        (λ t, Exists (λ tag, Tag.name tag ∈ name :: rest) (Task.tags t)) q
  | _ => q
  end.

End Reads.

(** ** Consistency of a database *)

(** Every task row is stored under its [id]. *)
Definition keyed (d : DB) : Prop :=
  ∀ k task, tasks d !! k = Some task → Task.id task = k.

(** The keys in use lie below the sequences that hand out new ones, and
    no key of a table is used twice. *)
Definition keys_fresh (d : DB) : Prop :=
  (∀ k, is_Some (tasks d !! k) → k < task_seq d) ∧
  (∀ tag, tag ∈ tags d → Tag.id tag < tag_seq d) ∧
  (∀ dep, dep ∈ task_dependencies d →
          TaskDependency.id dep < dependency_seq d) ∧
  (∀ e, e ∈ task_events d → TaskEvent.id e < event_seq d) ∧
  NoDup (Tag.id <$> tags d) ∧
  NoDup (TaskDependency.id <$> task_dependencies d) ∧
  NoDup (TaskEvent.id <$> task_events d).

(** [unique=True] on [Tag.name]. *)
Definition tag_names_unique (d : DB) : Prop := NoDup (Tag.name <$> tags d).

Definition pair_of (dep : TaskDependency.t) : Z * Z :=
  (TaskDependency.task_id dep, TaskDependency.depends_on_id dep).

(** [UniqueConstraint("task_id", "depends_on_id")]. *)
Definition pairs_unique (d : DB) : Prop :=
  NoDup (pair_of <$> task_dependencies d).

(** No task depends on itself. *)
Definition no_self_dependency (d : DB) : Prop :=
  ∀ dep, dep ∈ task_dependencies d →
         TaskDependency.task_id dep ≠ TaskDependency.depends_on_id dep.

(** The foreign keys to [tasks.id] of the events and of the dependencies
    point at rows that exist. *)
Definition references_resolve (d : DB) : Prop :=
  (∀ e, e ∈ task_events d → is_Some (tasks d !! TaskEvent.task_id e)) ∧
  (∀ dep, dep ∈ task_dependencies d →
          is_Some (tasks d !! TaskDependency.task_id dep) ∧
          is_Some (tasks d !! TaskDependency.depends_on_id dep)).

Record consistent (d : DB) : Prop := mk_consistent {
  consistent_keyed : keyed d;
  consistent_fresh : keys_fresh d;
  consistent_tag_names : tag_names_unique d;
  consistent_pairs : pairs_unique d;
  consistent_no_self : no_self_dependency d;
  consistent_references : references_resolve d
}.

(** ** Observations for the audit trail *)

(** The entry of [changed_fields] a scalar attribute gives rise to: none
    when the payload has no value for it or restates the current one. *)
Definition scalar_change (task : Task.t) (data : TaskUpdate.t) (field : attr)
    : option change :=
  match data_attr data field with
  | Some v =>
      if decide (Some v ≠ getattr task field)
      then Some (attr_name field, getattr task field, Some v)
      else None
  | None => None
  end.

(** The entries of [changed_fields] for a task and a payload: the scalar
    attributes in the order of their declaration, then the relations. *)
Definition changes_of (task : Task.t) (data : TaskUpdate.t) : list change :=
  omap (scalar_change task data) all_attrs ++ relation_changes data.

(** The events recorded for a list of changes, keyed from [first]. *)
Definition update_events_of (str_datetime : datetime → string)
    (task : Task.t) (user_id : Z) (first : Z) (changed : list change)
    : list TaskEvent.t :=
  imap (λ i c, update_event str_datetime task user_id (first + Z.of_nat i) c)
    changed.

(** A route keeps the database consistent when the view it leaves is
    consistent and so is every state it commits. *)
Definition keeps_consistency (db db' : Session) : Prop :=
  consistent (view db') ∧
  ∀ d, d ∈ commits db' → d ∈ commits db ∨ consistent d.

(** Two states of a task that differ at most in [status], [priority] and
    [assignee_id]. *)
Definition differ_in_bulk_attributes (task task' : Task.t) : Prop :=
  Task.id task' = Task.id task ∧
  Task.title task' = Task.title task ∧
  Task.description task' = Task.description task ∧
  Task.due_date task' = Task.due_date task ∧
  Task.created_by_id task' = Task.created_by_id task ∧
  Task.parent_id task' = Task.parent_id task ∧
  Task.tags task' = Task.tags task ∧
  Task.collaborators task' = Task.collaborators task.

(** An audit event as [bulk_update_tasks] records them. *)
Definition bulk_event (actor : User.t) (items : list BulkTaskUpdateItem.t)
    (e : TaskEvent.t) : Prop :=
  TaskEvent.event_type e = "update" ∧
  TaskEvent.user_id e = Some (User.id actor) ∧
  TaskEvent.field e ∈ [Some "status"; Some "priority"; Some "assignee_id"] ∧
  TaskEvent.task_id e ∈ BulkTaskUpdateItem.id <$> items.

(** ** What the filters of [list_tasks] ask of a task *)

(** A list filter on a nullable column: nothing when the list is absent
    or empty, otherwise a value of the list. *)
Definition passes_in {A} (xs : option (list A)) (column : option A) : Prop :=
  match xs with
  | Some (x :: rest) => ∃ v, column = Some v ∧ v ∈ x :: rest
  | _ => True
  end.

(** A lower and an upper bound on a nullable timestamp. *)
Definition passes_from (bound : option datetime) (column : option datetime)
    : Prop :=
  match bound with
  | Some d => ∃ v, column = Some v ∧ d ≤ v
  | None => True
  end.

Definition passes_to (bound : option datetime) (column : option datetime)
    : Prop :=
  match bound with
  | Some d => ∃ v, column = Some v ∧ v ≤ d
  | None => True
  end.

(** The tag filter: some tag of the task bears one of the names. *)
Definition passes_tag (tag_in : option (list string)) (task : Task.t)
    : Prop :=
  match tag_in with
  | Some (name :: rest) =>
      ∃ tag, tag ∈ Task.tags task ∧ Tag.name tag ∈ name :: rest
  | _ => True
  end.

(** ** Analytics ([app/routers/analytics.py]) *)

Module TaskDistribution.
Record t := mk { user_id : Z; total_tasks : Z; overdue_tasks : Z }.
End TaskDistribution.

(** [func.sum(...)] over the rows of a group: NULL when there is no
    row. *)
Definition sql_sum (values : list Z) : option Z :=
  match values with
  | [] => None
  | _ :: _ => Some (foldr Z.add 0 values)
  end.

(** [x or 0] on an optional integer: [None] and [0] are falsy. *)
Definition or_zero (x : option Z) : Z :=
  match x with
  | Some n => if decide (n = 0) then 0 else n
  | None => 0
  end.

(** [case((models.Task.due_date < now, 1), else_=0)]: the comparison is
    not true for a NULL due date. *)
Definition overdue_case (now : datetime) (task : Task.t) : Z :=
  match Task.due_date task with
  | Some d => if decide (d < now) then 1 else 0
  | None => 0
  end.

(** [task_distribution]; [utcnow] is the value of [datetime.utcnow()] when
    the query is built.  The groups come in the order their keys first
    occur, the engine's order. *)
Definition task_distribution (utcnow : datetime) (db : Session)
    (current_user : User.t) : list TaskDistribution.t :=
  let rows := filter (λ t, Task.assignee_id t ≠ None) (all_tasks db) in
  let keys := remove_dups (omap Task.assignee_id rows) in
  let sub :=
    (λ user_id,
      let group := filter (λ t, Task.assignee_id t = Some user_id) rows in
      (user_id, Z.of_nat (length group),
       sql_sum (overdue_case utcnow <$> group))) <$> keys in
  (λ row : Z * Z * option Z,
    TaskDistribution.mk row.1.1 row.1.2 (or_zero row.2)) <$> sub.

(** [timedelta(days=days)], in microseconds. *)
Definition timedelta_days (days : Z) : Z := days * 86400000000.

(** [days: int = Query(7, ge=1, le=90)]: the value the route body gets
    for the query parameter, [None] when the request is refused. *)
Definition query_days (days : option Z) : option Z :=
  match days with
  | None => Some 7
  | Some d => if decide (1 ≤ d ∧ d ≤ 90) then Some d else None
  end.

Section Timeline.

(** The column [created_at] of an event, which [TaskEvent.t] leaves out,
    as a function of the key of the row. *)
Variable event_created_at : Z → datetime.

(** [.order_by(models.TaskEvent.created_at.desc())] *)
Definition newest_first (e1 e2 : TaskEvent.t) : Prop :=
  event_created_at (TaskEvent.id e2) ≤ event_created_at (TaskEvent.id e1).

#[global] Instance newest_first_dec e1 e2 : Decision (newest_first e1 e2).
Proof. unfold newest_first. apply _. Defined.

(** The join of an event with its task and the filter on the task:
    [Task.assignee_id == current_user.id] or
    [Task.created_by_id == current_user.id]. *)
Definition on_task_of (db : Session) (current_user : User.t)
    (e : TaskEvent.t) : Prop :=
  match tasks (view db) !! TaskEvent.task_id e with
  | Some task =>
      Task.assignee_id task = Some (User.id current_user) ∨
      Task.created_by_id task = User.id current_user
  | None => False
  end.

#[global] Instance on_task_of_dec db current_user e
  : Decision (on_task_of db current_user e).
Proof. unfold on_task_of. destruct (tasks _ !! _); apply _. Defined.

(** The body of [timeline], for the value [days] of the query parameter
    and the value [utcnow] of [datetime.utcnow()]. *)
Definition timeline (utcnow : datetime) (days : Z) (db : Session)
    (current_user : User.t) : list TaskEvent.t :=
  let since := utcnow - timedelta_days days in
  let events :=
    filter
      (λ e,
        since ≤ event_created_at (TaskEvent.id e) ∧
        on_task_of db current_user e)
      (task_events (view db)) in
  merge_sort newest_first events.

End Timeline.

(** A task is overdue at [now] when it has a due date before [now]. *)
Definition is_overdue (now : datetime) (task : Task.t) : Prop :=
  match Task.due_date task with
  | Some d => d < now
  | None => False
  end.

#[global] Instance is_overdue_dec now task : Decision (is_overdue now task).
Proof. unfold is_overdue. destruct (Task.due_date task); apply _. Defined.

(** The tasks assigned to a user. *)
Definition assigned_to (db : Session) (user_id : Z) : list Task.t :=
  filter (λ t, Task.assignee_id t = Some user_id) (all_tasks db).

(** The sum of a column of integers. *)
Definition total (values : list Z) : Z := foldr Z.add 0 values.

(** ** The scalar attributes *)

Lemma getattr_setattr task field field' v :
  typed field v →
  getattr (setattr task field v) field' =
    if decide (field = field') then Some v else getattr task field'.
Proof.
  destruct task, field, v; simpl; try done; intros _;
    destruct field'; simpl; done.
Qed.

Lemma data_attr_typed data field v :
  data_attr data field = Some v → typed field v.
Proof.
  destruct data, field; simpl; intros H;
    apply fmap_Some in H as (? & _ & ->); done.
Qed.

Lemma setattr_frame task field v :
  Task.id (setattr task field v) = Task.id task ∧
  Task.created_by_id (setattr task field v) = Task.created_by_id task ∧
  Task.tags (setattr task field v) = Task.tags task ∧
  Task.collaborators (setattr task field v) = Task.collaborators task.
Proof. destruct task, field, v; simpl; done. Qed.

Lemma apply_scalars_fold task data :
  apply_scalars task data =
    foldl (λ st field, set_attr field (data_attr data field) st) (task, [])
      all_attrs.
Proof. reflexivity. Qed.

Lemma set_attr_getattr data field st field' :
  getattr (set_attr field (data_attr data field) st).1 field' =
    if decide (field = field') then patched data st.1 field
    else getattr st.1 field'.
Proof.
  destruct st as [task changed]. unfold set_attr, patched.
  destruct (data_attr data field) as [v|] eqn:Hv; simpl.
  - apply data_attr_typed in Hv. case_decide as Hne; simpl.
    + by apply getattr_setattr.
    + case_decide; by subst.
  - case_decide; by subst.
Qed.

Lemma fold_set_attr_getattr data fields st field :
  NoDup fields →
  getattr
    (foldl (λ st f, set_attr f (data_attr data f) st) st fields).1 field =
    if decide (field ∈ fields) then patched data st.1 field
    else getattr st.1 field.
Proof.
  intros Hnd. revert st.
  induction Hnd as [|f fields Hnotin Hnd IH]; intros st; cbn [foldl].
  { rewrite decide_False; [done|]. apply not_elem_of_nil. }
  rewrite IH. unfold patched. rewrite !set_attr_getattr.
  destruct (decide (f = field)) as [->|Hne].
  - rewrite (decide_True (P := field ∈ field :: fields)) by left.
    rewrite decide_False by done.
    unfold patched. by destruct (data_attr data field).
  - destruct (decide (field ∈ fields)) as [Hin|Hin].
    + rewrite (decide_True (P := field ∈ f :: fields)) by (by right). done.
    + rewrite (decide_False (P := field ∈ f :: fields)); [done|].
      intros [->|?]%elem_of_cons; done.
Qed.

Lemma all_attrs_NoDup : NoDup all_attrs.
Proof.
  unfold all_attrs.
  repeat (apply NoDup_cons; split;
    [intros Hin; repeat (apply elem_of_cons in Hin as [?|Hin]; [done|]);
     by apply elem_of_nil in Hin|]).
  apply NoDup_nil_2.
Qed.

Lemma elem_of_all_attrs field : field ∈ all_attrs.
Proof. destruct field; unfold all_attrs; repeat constructor. Qed.

Lemma apply_scalars_getattr task data field :
  getattr (apply_scalars task data).1 field = patched data task field.
Proof.
  rewrite apply_scalars_fold,
    (fold_set_attr_getattr _ _ _ _ all_attrs_NoDup).
  case_decide as Hin; [done|]. destruct Hin. apply elem_of_all_attrs.
Qed.

Lemma set_attr_frame field v st :
  Task.id (set_attr field v st).1 = Task.id st.1 ∧
  Task.created_by_id (set_attr field v st).1 = Task.created_by_id st.1 ∧
  Task.tags (set_attr field v st).1 = Task.tags st.1 ∧
  Task.collaborators (set_attr field v st).1 = Task.collaborators st.1.
Proof.
  destruct st as [task changed]. unfold set_attr.
  destruct v as [v|]; [|done]. case_decide; [|done]. apply setattr_frame.
Qed.

Lemma fold_set_attr_frame data fields st :
  let st' := foldl (λ st f, set_attr f (data_attr data f) st) st fields in
  Task.id st'.1 = Task.id st.1 ∧
  Task.created_by_id st'.1 = Task.created_by_id st.1 ∧
  Task.tags st'.1 = Task.tags st.1 ∧
  Task.collaborators st'.1 = Task.collaborators st.1.
Proof.
  revert st. induction fields as [|f fields IH]; intros st; simpl; [done|].
  destruct (IH (set_attr f (data_attr data f) st)) as (-> & -> & -> & ->).
  apply set_attr_frame.
Qed.

Lemma apply_scalars_frame task data :
  Task.id (apply_scalars task data).1 = Task.id task ∧
  Task.created_by_id (apply_scalars task data).1 = Task.created_by_id task ∧
  Task.tags (apply_scalars task data).1 = Task.tags task ∧
  Task.collaborators (apply_scalars task data).1 = Task.collaborators task.
Proof. rewrite apply_scalars_fold. apply fold_set_attr_frame. Qed.

(** A payload whose values the task already holds changes nothing. *)
Lemma fold_set_attr_fixed data fields st :
  (∀ f v, f ∈ fields → data_attr data f = Some v → getattr st.1 f = Some v) →
  foldl (λ st f, set_attr f (data_attr data f) st) st fields = st.
Proof.
  induction fields as [|f fields IH]; intros Hfix; simpl; [done|].
  assert (set_attr f (data_attr data f) st = st) as ->.
  { destruct st as [task changed]. unfold set_attr.
    destruct (data_attr data f) as [v|] eqn:Hv; [|done].
    case_decide as Hne; [|done]. destruct Hne. symmetry.
    apply (Hfix f v); [left|done]. }
  apply IH. intros g v Hg. apply Hfix. by right.
Qed.

Lemma apply_scalars_fixed task data :
  (∀ f v, data_attr data f = Some v → getattr task f = Some v) →
  apply_scalars task data = (task, []).
Proof.
  intros Hfix. rewrite apply_scalars_fold. apply fold_set_attr_fixed.
  intros f v _. apply Hfix.
Qed.

Lemma getattr_set_tags task tg field :
  getattr (set_tags task tg) field = getattr task field.
Proof. by destruct task, field. Qed.

Lemma getattr_set_collaborators task co field :
  getattr (set_collaborators task co) field = getattr task field.
Proof. by destruct task, field. Qed.

(** ** Tag resolution *)

Lemma extend_tags_nil db : extend_tags [] db = db.
Proof.
  destruct db as [[] ?]. unfold extend_tags; simpl.
  by rewrite app_nil_r, Z.add_0_r.
Qed.

Lemma extend_tags_app new1 new2 db :
  extend_tags new2 (extend_tags new1 db) = extend_tags (new1 ++ new2) db.
Proof.
  unfold extend_tags; simpl. rewrite <- app_assoc, length_app.
  do 2 f_equal. lia.
Qed.

Lemma add_tag_extend name db :
  add_tag name db =
    (Tag.mk (tag_seq (view db)) name,
     extend_tags [Tag.mk (tag_seq (view db)) name] db).
Proof. reflexivity. Qed.

Lemma query_tag_extend new db name :
  query_tag (extend_tags new db) name =
    match query_tag db name with
    | Some tag => Some tag
    | None => find (λ tag, bool_decide (Tag.name tag = name)) new
    end.
Proof.
  unfold query_tag, extend_tags; simpl.
  induction (tags (view db)) as [|tag rows IH]; simpl; [done|].
  by destruct (bool_decide (Tag.name tag = name)).
Qed.

Lemma query_tag_Some db name tag :
  query_tag db name = Some tag →
  Tag.name tag = name ∧ tag ∈ tags (view db).
Proof.
  unfold query_tag. intros H. apply find_some in H as [Hin Hname].
  split; [by apply bool_decide_eq_true in Hname | by apply list_elem_of_In].
Qed.

Lemma query_tag_None db name :
  query_tag db name = None ↔
  ∀ tag, tag ∈ tags (view db) → Tag.name tag ≠ name.
Proof.
  unfold query_tag. split.
  - intros H tag Hin Hname.
    apply list_elem_of_In in Hin. apply (find_none _ _ H) in Hin.
    by rewrite bool_decide_eq_true_2 in Hin.
  - intros H. destruct (find _ _) as [tag|] eqn:Hf; [|done].
    apply (query_tag_Some db) in Hf as [Hname Hin]. by destruct (H tag Hin).
Qed.

(** What the loop over the names returns: the tags looked up or created,
    appended to the collection, and the session with the created tags. *)
Lemma resolve_tags_extend names : ∀ acc db,
  ∃ tgs new,
    resolve_tags names acc db = (acc ++ tgs, extend_tags new db) ∧
    Forall2 (λ name tag, query_tag (extend_tags new db) name = Some tag)
      names tgs ∧
    (∀ tag, tag ∈ new → Tag.name tag ∈ names ∧
                         query_tag db (Tag.name tag) = None) ∧
    NoDup (Tag.name <$> new).
Proof.
  induction names as [|name rest IH]; intros acc db; cbn [resolve_tags].
  { exists [], []. rewrite app_nil_r, extend_tags_nil.
    split_and!; [done | constructor | by intros ? ?%elem_of_nil
                | constructor]. }
  destruct (query_tag db name) as [tag|] eqn:Hq.
  - destruct (IH (acc ++ [tag]) db) as (tgs & new & -> & Hall & Hnew & Hnd).
    exists (tag :: tgs), new. rewrite <- app_assoc. split_and!; try done.
    + constructor; [|done]. by rewrite query_tag_extend, Hq.
    + intros tag' Hin. destruct (Hnew tag' Hin) as [? ?].
      split; [by right|done].
  - rewrite add_tag_extend. set (tag := Tag.mk _ name).
    destruct (IH (acc ++ [tag]) (extend_tags [tag] db))
      as (tgs & new & -> & Hall & Hnew & Hnd).
    rewrite extend_tags_app in *.
    exists (tag :: tgs), ([tag] ++ new). rewrite <- app_assoc.
    split_and!; try done.
    + constructor; [|done]. rewrite query_tag_extend, Hq. simpl.
      by rewrite bool_decide_eq_true_2.
    + intros tag' [->|Hin]%elem_of_cons.
      { split; [by left|done]. }
      destruct (Hnew tag' Hin) as [Hname Hnone]. split; [by right|].
      rewrite query_tag_extend in Hnone.
      by destruct (query_tag db (Tag.name tag')) eqn:E.
    + simpl. apply NoDup_cons. split; [|done].
      intros (tag' & Hname & Hin)%list_elem_of_fmap.
      destruct (Hnew tag' Hin) as [_ Hnone].
      rewrite query_tag_extend, <- Hname, Hq in Hnone. simpl in Hnone.
      by rewrite bool_decide_eq_true_2 in Hnone.
Qed.

(** When every name already has its tag, the loop only links them. *)
Lemma resolve_tags_found names : ∀ tgs acc db,
  Forall2 (λ name tag, query_tag db name = Some tag) names tgs →
  resolve_tags names acc db = (acc ++ tgs, db).
Proof.
  induction names as [|name rest IH]; intros tgs acc db Hall;
    inversion Hall as [|? tag ? tgs' Hq Hrest]; subst; simpl.
  { by rewrite app_nil_r. }
  rewrite Hq, (IH tgs'), <- app_assoc; done.
Qed.

Lemma Forall2_query_tag_names db names tgs :
  Forall2 (λ name tag, query_tag db name = Some tag) names tgs →
  Tag.name <$> tgs = names ∧ (∀ tag, tag ∈ tgs → tag ∈ tags (view db)).
Proof.
  induction 1 as [|name tag names tgs Hq _ [IH1 IH2]]; simpl.
  { split; [done|]. by intros ? ?%elem_of_nil. }
  apply query_tag_Some in Hq as [Hname Hin]. split; [by f_equal|].
  intros tag' [->|?]%elem_of_cons; auto.
Qed.

(** ** The two phases of [_apply_task_updates] *)

Lemma set_tags_id task : set_tags task (Task.tags task) = task.
Proof. by destruct task. Qed.

Lemma set_collaborators_id task :
  set_collaborators task (Task.collaborators task) = task.
Proof. by destruct task. Qed.

Lemma tags_set_tags task tg : Task.tags (set_tags task tg) = tg.
Proof. by destruct task. Qed.

Lemma tags_set_collaborators task co :
  Task.tags (set_collaborators task co) = Task.tags task.
Proof. by destruct task. Qed.

Lemma collaborators_set_collaborators task co :
  Task.collaborators (set_collaborators task co) = co.
Proof. by destruct task. Qed.

Lemma collaborators_set_tags task tg :
  Task.collaborators (set_tags task tg) = Task.collaborators task.
Proof. by destruct task. Qed.

Lemma query_users_in_nil db : query_users_in db [] = [].
Proof.
  unfold query_users_in. induction (users (view db)) as [|u us IH]; [done|].
  rewrite filter_cons, decide_False; [done|]. apply not_elem_of_nil.
Qed.

(** The first phase, spelled out: the scalar attributes, then the tags,
    then the collaborators. *)
Lemma compute_changes_eq task data db :
  compute_changes task data db =
    let '(tgs, db') :=
      match TaskBase.tag_names data with
      | Some tag_names => resolve_tags tag_names [] db
      | None => (Task.tags task, db)
      end in
    (set_collaborators (set_tags (apply_scalars task data).1 tgs)
       (collaborators_after data db task),
     (apply_scalars task data).2 ++ relation_changes data,
     db').
Proof.
  unfold compute_changes, relation_changes, collaborators_after.
  destruct (apply_scalars_frame task data) as (_ & _ & Htags & Hco).
  destruct (apply_scalars task data) as [task1 changed]; simpl in *.
  unfold apply_tags, apply_collaborators.
  destruct (TaskBase.tag_names data) as [tag_names|].
  - destruct (resolve_tags_extend tag_names [] db) as (tgs & new & Hres & _).
    rewrite Hres. simpl.
    destruct (TaskBase.collaborator_ids data) as [[|i ids]|]; simpl.
    + by rewrite query_users_in_nil, <- app_assoc.
    + by rewrite <- app_assoc.
    + by rewrite <- Hco, <- (collaborators_set_tags task1 tgs),
        set_collaborators_id.
  - rewrite <- Htags, set_tags_id.
    destruct (TaskBase.collaborator_ids data) as [[|i ids]|]; simpl.
    + by rewrite query_users_in_nil.
    + done.
    + by rewrite <- Hco, set_collaborators_id, app_nil_r.
Qed.

Lemma compute_changes_spec task data db :
  ∃ tgs new,
    compute_changes task data db =
      (set_collaborators (set_tags (apply_scalars task data).1 tgs)
         (collaborators_after data db task),
       (apply_scalars task data).2 ++ relation_changes data,
       extend_tags new db) ∧
    match TaskBase.tag_names data with
    | Some tag_names =>
        Forall2 (λ name tag, query_tag (extend_tags new db) name = Some tag)
          tag_names tgs ∧
        (∀ tag, tag ∈ new → Tag.name tag ∈ tag_names ∧
                             query_tag db (Tag.name tag) = None) ∧
        NoDup (Tag.name <$> new)
    | None => tgs = Task.tags task ∧ new = []
    end.
Proof.
  rewrite compute_changes_eq.
  destruct (TaskBase.tag_names data) as [tag_names|].
  - destruct (resolve_tags_extend tag_names [] db)
      as (tgs & new & -> & Hall & Hnew & Hnd).
    by exists tgs, new.
  - exists (Task.tags task), []. by rewrite extend_tags_nil.
Qed.

(** The first phase on a session that already holds every tag of the
    payload. *)
Lemma compute_changes_found task data db tgs :
  match TaskBase.tag_names data with
  | Some tag_names =>
      Forall2 (λ name tag, query_tag db name = Some tag) tag_names tgs
  | None => tgs = Task.tags task
  end →
  compute_changes task data db =
    (set_collaborators (set_tags (apply_scalars task data).1 tgs)
       (collaborators_after data db task),
     (apply_scalars task data).2 ++ relation_changes data,
     db).
Proof.
  intros Htgs. rewrite compute_changes_eq.
  destruct (TaskBase.tag_names data) as [tag_names|]; [|by subst].
  by rewrite (resolve_tags_found _ tgs).
Qed.

Lemma record_changes_extend str_datetime task user_id changed : ∀ db,
  ∃ events,
    record_changes str_datetime task user_id changed db =
      extend_events events db ∧
    Forall2
      (λ c e, ∃ key, e = update_event str_datetime task user_id key c)
      changed events.
Proof.
  unfold record_changes.
  induction changed as [|[[field old] new] changed IH]; intros db; simpl.
  { exists []. split; [|constructor]. destruct db as [[] ?].
    unfold extend_events; simpl. by rewrite app_nil_r, Z.add_0_r. }
  destruct (IH (add_event (Task.id task) (Some user_id) "update" (Some field)
                  (py_str str_datetime <$> old) (py_str str_datetime <$> new)
                  db)) as (events & -> & Hall).
  eexists (_ :: events). split.
  - unfold extend_events, add_event; simpl. rewrite <- app_assoc. simpl.
    do 2 f_equal. lia.
  - constructor; [|done]. by eexists.
Qed.

(** ** Applying a payload twice *)

Lemma query_tag_extend_events events db name :
  query_tag (extend_events events db) name = query_tag db name.
Proof. reflexivity. Qed.

Lemma collaborators_after_extend data events new db task :
  collaborators_after data (extend_events events (extend_tags new db)) task =
    collaborators_after data db task.
Proof. reflexivity. Qed.

(** The task a first application leaves is a fixed point of the first
    phase: a second one finds every value in place and every tag on
    record, and reports the relations only. *)
Lemma compute_changes_again task data db events :
  let '(task1, _, db1) := compute_changes task data db in
  compute_changes task1 data (extend_events events db1) =
    (task1, relation_changes data, extend_events events db1).
Proof.
  destruct (compute_changes_spec task data db) as (tgs & new & -> & Htgs).
  set (task1 := set_collaborators _ _).
  assert (Task.tags task1 = tgs) as Htags1.
  { unfold task1. by rewrite tags_set_collaborators, tags_set_tags. }
  assert (Task.collaborators task1 = collaborators_after data db task)
    as Hco1.
  { unfold task1. by rewrite collaborators_set_collaborators. }
  assert (apply_scalars task1 data = (task1, [])) as Hfix.
  { apply apply_scalars_fixed. intros f v Hv. unfold task1.
    rewrite getattr_set_collaborators, getattr_set_tags,
      apply_scalars_getattr. unfold patched. by rewrite Hv. }
  rewrite (compute_changes_found _ _ _ tgs).
  - rewrite Hfix. simpl. f_equal. f_equal.
    rewrite <- Htags1 at 1. rewrite set_tags_id.
    rewrite collaborators_after_extend.
    assert (collaborators_after data db task1 = Task.collaborators task1)
      as ->; [|apply set_collaborators_id].
    unfold collaborators_after in *.
    by destruct (TaskBase.collaborator_ids data).
  - destruct (TaskBase.tag_names data) as [tag_names|]; [|done].
    destruct Htgs as (Hall & _). eapply Forall2_impl; [exact Hall|].
    intros name tag Hq. by rewrite query_tag_extend_events.
Qed.

Lemma relation_changes_nil data :
  relation_changes data = [] ↔
  TaskBase.tag_names data = None ∧ TaskBase.collaborator_ids data = None.
Proof.
  unfold relation_changes.
  destruct (TaskBase.tag_names data), (TaskBase.collaborator_ids data);
    simpl; (split; [try done | by intros [? ?]]).
Qed.

(** C2, as amended: a second application of the same payload, right after
    the first, changes no scalar attribute and leaves the task and the tags
    on record as they are; its change list is exactly one entry per relation
    the payload supplies, so it is empty, and no audit event is recorded,
    if and only if the payload supplies neither [tag_names] nor
    [collaborator_ids]. *)
Theorem second_application_reports_relations_only
    str_datetime task data db user_id :
  let '(task1, db1) := _apply_task_updates str_datetime task data db user_id in
  let '(task2, changed2, db2) := compute_changes task1 data db1 in
  changed2 = relation_changes data ∧
  (changed2 = [] ↔
     TaskBase.tag_names data = None ∧
     TaskBase.collaborator_ids data = None) ∧
  task2 = task1 ∧ db2 = db1 ∧
  ∃ events,
    _apply_task_updates str_datetime task1 data db1 user_id =
      (task1, extend_events events db1) ∧
    length events = length (relation_changes data) ∧
    Forall (λ e, TaskEvent.event_type e = "update") events.
Proof.
  unfold _apply_task_updates.
  pose proof (compute_changes_again task data db) as Hagain.
  destruct (compute_changes task data db) as [[task1 changed1] db1'].
  destruct (record_changes_extend str_datetime task1 user_id changed1 db1')
    as (events1 & -> & _).
  rewrite (Hagain events1).
  split_and!; try done; [apply relation_changes_nil|].
  destruct (record_changes_extend str_datetime task1 user_id
              (relation_changes data) (extend_events events1 db1'))
    as (events & -> & Hall).
  exists events. split_and!; [done| |].
  - symmetry. by eapply Forall2_length.
  - clear -Hall. induction Hall as [|c e ? ? [key ->] _ IH]; by constructor.
Qed.

(** C2, as stated, fails: a payload that supplies [tag_names] is reported
    as a change, and audited, every time it is applied. *)
Lemma second_application_of_retag_is_reported :
  let '(task1, db1) :=
    _apply_task_updates epoch_str ship_release retag (open_session office)
      1 in
  let '(_, changed2, _) := compute_changes task1 retag db1 in
  let '(_, db2) := _apply_task_updates epoch_str task1 retag db1 1 in
  changed2 = [("tags", None, Some (VStr "urgent,release"))] ∧
  changed2 ≠ [] ∧
  length (update_events (view db1)) = 1%nat ∧
  length (update_events (view db2)) = 2%nat.
Proof. vm_compute. split_and!; done. Qed.

(** ** Relation replacement *)

(** C9: when the payload supplies [tag_names], the names of the task's
    tags afterwards are exactly the names supplied, each tag is on record,
    and the tags created are one per name that had no record (names compare
    exactly); when it supplies [collaborator_ids], the task's collaborators
    afterwards are exactly the existing users whose id is among them, ids
    of no user being dropped.  A relation the payload does not supply is
    left as it is. *)
Theorem supplied_relations_are_replaced str_datetime task data db user_id :
  let '(task', db') := _apply_task_updates str_datetime task data db user_id in
  match TaskBase.tag_names data with
  | Some tag_names =>
      Tag.name <$> Task.tags task' = tag_names ∧
      (∀ tag, tag ∈ Task.tags task' → tag ∈ tags (view db')) ∧
      ∃ new,
        tags (view db') = tags (view db) ++ new ∧
        NoDup (Tag.name <$> new) ∧
        ∀ name, name ∈ Tag.name <$> new ↔
                name ∈ tag_names ∧ query_tag db name = None
  | None =>
      Task.tags task' = Task.tags task ∧
      tags (view db') = tags (view db)
  end ∧
  match TaskBase.collaborator_ids data with
  | Some collaborator_ids =>
      Task.collaborators task' =
        filter (λ u, User.id u ∈ collaborator_ids) (users (view db)) ∧
      ∀ i, i ∈ User.id <$> Task.collaborators task' ↔
           i ∈ collaborator_ids ∧ ∃ u, u ∈ users (view db) ∧ User.id u = i
  | None => Task.collaborators task' = Task.collaborators task
  end.
Proof.
  unfold _apply_task_updates.
  destruct (compute_changes_spec task data db) as (tgs & new & -> & Htgs).
  destruct (record_changes_extend str_datetime
              (set_collaborators (set_tags (apply_scalars task data).1 tgs)
                 (collaborators_after data db task))
              user_id
              ((apply_scalars task data).2 ++ relation_changes data)
              (extend_tags new db)) as (events & -> & _).
  rewrite tags_set_collaborators, tags_set_tags,
    collaborators_set_collaborators.
  change (tags (view (extend_events events (extend_tags new db))))
    with (tags (view db) ++ new).
  split.
  - destruct (TaskBase.tag_names data) as [tag_names|].
    + destruct Htgs as (Hall & Hnew & Hnd).
      destruct (Forall2_query_tag_names _ _ _ Hall) as [Hnames Hrows].
      split_and!; [done..|]. exists new. split_and!; [done..|].
      intros name. split.
      * intros (tag & -> & Hin)%list_elem_of_fmap. by apply Hnew.
      * intros [Hin Hnone].
        assert (∃ tag, tag ∈ tgs ∧ Tag.name tag = name) as (tag & Htag & <-).
        { rewrite <- Hnames in Hin.
          apply list_elem_of_fmap in Hin as (tag & -> & Hin). eauto. }
        apply list_elem_of_fmap_2.
        apply Hrows, elem_of_app in Htag as [Hold|Hnew']; [|done].
        by destruct (proj1 (query_tag_None db _) Hnone tag Hold).
    + destruct Htgs as [-> ->]. by rewrite app_nil_r.
  - unfold collaborators_after.
    destruct (TaskBase.collaborator_ids data) as [ids|]; [|done].
    split; [done|]. intros i. unfold query_users_in.
    rewrite list_elem_of_fmap. split.
    + intros (u & -> & [Hid Hu]%list_elem_of_filter). eauto.
    + intros (Hid & u & Hu & <-). exists u. split; [done|].
      by apply list_elem_of_filter.
Qed.

Example invite_links_existing_users_and_exact_names :
  let '(task', db') :=
    _apply_task_updates epoch_str ship_release invite (open_session office)
      1 in
  Task.tags task' = [Tag.mk 2 "Urgent"; Tag.mk 1 "urgent"] ∧
  tags (view db') = [Tag.mk 1 "urgent"; Tag.mk 2 "Urgent"] ∧
  Task.collaborators task' = [bob; cyd].
Proof. vm_compute. done. Qed.

(** ** Null and absent keys *)

Lemma apply_task_updates_getattr str_datetime task data db user_id field :
  getattr (_apply_task_updates str_datetime task data db user_id).1 field =
    patched data task field.
Proof.
  unfold _apply_task_updates.
  destruct (compute_changes_spec task data db) as (tgs & new & -> & _).
  simpl.
  by rewrite getattr_set_collaborators, getattr_set_tags,
    apply_scalars_getattr.
Qed.

Lemma parse_clear_key field (how : ∀ A, json_field A) j :
  (∀ A, optional (how A) = None) →
  data_attr (TaskUpdate.parse (clear_key field how j)) field = None.
Proof. intros Hhow. destruct j, field; simpl; by rewrite Hhow. Qed.


(** ** The access rules *)

Lemma not_elem_of_pair {A} (x a b : A) : x ∉ [a; b] ↔ x ≠ a ∧ x ≠ b.
Proof.
  rewrite !not_elem_of_cons. split.
  - by intros (? & ? & _).
  - intros [? ?]. split_and!; [done..|apply not_elem_of_nil].
Qed.

Lemma update_denied_false current_user task :
  update_denied current_user task = false ↔ may_update current_user task.
Proof.
  unfold update_denied, may_update.
  rewrite andb_false_iff, !bool_decide_eq_false, !not_elem_of_pair.
  assert (Some (User.id current_user) ≠ Some (Task.created_by_id task) ↔
          User.id current_user ≠ Task.created_by_id task) as ->.
  { split; congruence. }
  destruct (decide (User.role current_user = "admin"));
    destruct (decide (User.role current_user = "manager"));
    destruct (decide (User.id current_user = Task.created_by_id task));
    destruct (decide (Some (User.id current_user) = Task.assignee_id task));
    tauto.
Qed.

Lemma delete_denied_false current_user task :
  delete_denied current_user task = false ↔ may_delete current_user task.
Proof.
  unfold delete_denied, may_delete.
  rewrite andb_false_iff, !bool_decide_eq_false, !not_elem_of_pair.
  destruct (decide (User.role current_user = "admin"));
    destruct (decide (User.role current_user = "manager"));
    destruct (decide (User.id current_user = Task.created_by_id task));
    tauto.
Qed.

(** What [update_task] does for a task that exists. *)
Lemma update_task_found str_datetime task_id task_in db current_user task :
  query_task db task_id = Some task →
  update_task str_datetime task_id task_in db current_user =
    if update_denied current_user task
    then (db, inl (HTTPException.mk 403 "Not allowed to update this task"))
    else
      let r :=
        _apply_task_updates str_datetime task task_in db
          (User.id current_user) in
      (db_commit (put_task task_id r.1 r.2), inr r.1).
Proof.
  intros Hq. unfold update_task. rewrite Hq.
  destruct (update_denied current_user task); [done|].
  by destruct (_apply_task_updates _ _ _ _ _).
Qed.

Lemma query_task_put_task key task db :
  query_task (db_commit (put_task key task db)) key = Some task.
Proof. unfold query_task; simpl. apply lookup_insert_eq. Qed.

(** C5: for an existing task, [update_task] gets past the access check,
    and returns the task, exactly when the actor is an admin or a manager,
    or is the task's creator, or is its assignee; any other actor is
    answered 403 Forbidden and the session, hence the task, is left as it
    was. *)
Theorem update_task_is_guarded
    str_datetime task_id task_in db current_user task :
  query_task db task_id = Some task →
  let r := update_task str_datetime task_id task_in db current_user in
  ((∃ task', r.2 = inr task') ↔ may_update current_user task) ∧
  (fails_with Forbidden r.2 ↔ ¬ may_update current_user task) ∧
  (¬ may_update current_user task →
   r = (db, inl (HTTPException.mk 403 "Not allowed to update this task")) ∧
   query_task r.1 task_id = Some task).
Proof.
  intros Hq r. unfold r. rewrite (update_task_found _ _ _ _ _ _ Hq).
  rewrite <- update_denied_false.
  destruct (update_denied current_user task); simpl.
  - split_and!; [|done|done]. split; [by intros [? ?]|done].
  - split_and!; [|done|done]. split; [done|]. by eexists.
Qed.

Lemma update_task_is_guarded_witness :
  query_task (open_session office) 1 = Some ship_release ∧
  (let r := update_task epoch_str 1 bogus_status (open_session office) dan in
   fails_with Forbidden r.2 ∧ query_task r.1 1 = Some ship_release).
Proof.
  split; [reflexivity|].
  destruct (update_task_is_guarded epoch_str 1 bogus_status
              (open_session office) dan ship_release) as (_ & Hf & Hno).
  { reflexivity. }
  assert (¬ may_update dan ship_release) as Hdan.
  { unfold may_update; simpl. intros [?|[?|[?|?]]]; done. }
  split; [by apply Hf | by apply Hno].
Defined.

(** C6: for an existing task, [delete_task] is refused with 403 Forbidden,
    the session left as it was, exactly when the actor is neither an admin
    nor a manager nor the task's creator; being the assignee does not
    count, so an actor who is only the assignee, and a member who is
    neither creator nor assignee, are refused. *)
Theorem delete_task_is_guarded delete_rows task_id db current_user task :
  query_task db task_id = Some task →
  let r := delete_task delete_rows task_id db current_user in
  (¬ fails_with Forbidden r.2 ↔ may_delete current_user task) ∧
  (¬ may_delete current_user task →
   r = (db, inl (HTTPException.mk 403 "Not allowed to delete this task"))) ∧
  (User.role current_user ∉ ["admin"; "manager"] →
   User.id current_user ≠ Task.created_by_id task →
   fails_with Forbidden r.2 ∧ r.1 = db).
Proof.
  intros Hq r. unfold r, delete_task. rewrite Hq.
  rewrite <- delete_denied_false.
  assert (User.role current_user ∉ ["admin"; "manager"] →
          User.id current_user ≠ Task.created_by_id task →
          delete_denied current_user task = true) as Hden.
  { intros Hrole Hid. unfold delete_denied.
    by rewrite !bool_decide_eq_true_2. }
  destruct (delete_denied current_user task) eqn:Hd; simpl.
  - split_and!; [|done|done]. split; [|done]. intros Hnf. by destruct Hnf.
  - split_and!; [|done|].
    + split; [done|]. intros _.
      destruct (delete_rows (view db) task); simpl; [tauto|].
      unfold Forbidden. done.
    + intros Hrole Hid. by specialize (Hden Hrole Hid).
Qed.

Lemma delete_task_is_guarded_witness :
  query_task (open_session office) 1 = Some ship_release ∧
  (let r := delete_task (λ _ _, None) 1 (open_session office) cyd in
   fails_with Forbidden r.2 ∧ r.1 = open_session office).
Proof.
  split; [reflexivity|].
  destruct (delete_task_is_guarded (λ _ _, None) 1 (open_session office) cyd
              ship_release) as (_ & _ & Hassignee).
  { reflexivity. }
  apply Hassignee; simpl; [|done].
  rewrite !not_elem_of_cons. split_and!; [done..|apply not_elem_of_nil].
Defined.

(** Whatever the engine does with the rows: cyd, the assignee of task 1,
    and dan are refused; ann, who created it, is not, and neither is eve,
    a manager, for a task she has no part in. *)
Example delete_task_by_creator_assignee_and_manager delete_rows :
  let db := open_session office in
  fails_with Forbidden (delete_task delete_rows 1 db cyd).2 ∧
  fails_with Forbidden (delete_task delete_rows 1 db dan).2 ∧
  ¬ fails_with Forbidden (delete_task delete_rows 1 db ann).2 ∧
  ¬ fails_with Forbidden (delete_task delete_rows 2 db eve).2 ∧
  fails_with NotFound (delete_task delete_rows 7 db eve).2.
Proof.
  split_and!; [done|done| | |done].
  - change (delete_task delete_rows 1 (open_session office) ann)
      with (match delete_rows office ship_release with
            | Some d => (db_commit (mkSession d []), inr ())
            | None =>
                (open_session office,
                 inl (HTTPException.mk 500 "Internal Server Error"))
            end).
    destruct (delete_rows office ship_release); simpl; [tauto|].
    unfold Forbidden. lia.
  - change (delete_task delete_rows 2 (open_session office) eve)
      with (match delete_rows office write_notes with
            | Some d => (db_commit (mkSession d []), inr ())
            | None =>
                (open_session office,
                 inl (HTTPException.mk 500 "Internal Server Error"))
            end).
    destruct (delete_rows office write_notes); simpl; [tauto|].
    unfold Forbidden. lia.
Qed.

(** ** Enumerations are not checked *)

(** C3, as stated, fails: ann, the creator of task 1, sets its status to
    a string outside the enumeration; the update succeeds and the title of
    the same payload is applied with it. *)
Lemma update_task_accepts_bogus_status :
  ("bogus" ∉ TaskStatusEnum.members) ∧
  (let r := update_task epoch_str 1 bogus_status (open_session office) ann in
   ¬ fails_with Validation r.2 ∧
   ∃ task',
     r.2 = inr task' ∧ query_task r.1 1 = Some task' ∧
     Task.status task' = Some "bogus" ∧ Task.title task' = "Ship it").
Proof.
  split.
  - unfold TaskStatusEnum.members. rewrite !not_elem_of_cons.
    split_and!; [done..|apply not_elem_of_nil].
  - vm_compute. split; [tauto|]. eexists. split_and!; reflexivity.
Qed.

Lemma patched_status data task s :
  TaskBase.status data = Some s →
  patched data task attr_status = Some (VStr s).
Proof. unfold patched; simpl. by intros ->. Qed.

Lemma patched_priority data task s :
  TaskBase.priority data = Some s →
  patched data task attr_priority = Some (VStr s).
Proof. unfold patched; simpl. by intros ->. Qed.

(** C3, as amended: [update_task] does not check [status] or [priority]
    against their enumerations.  It never answers with a validation error,
    and whenever it returns the updated task, the task, which is the one
    stored under the key, holds the status and the priority of the payload
    as they are given, members of the enumerations or not, and with them
    every other string or integer the payload carries. *)
Theorem update_task_stores_status_unchecked
    str_datetime task_id task_in db current_user :
  let r := update_task str_datetime task_id task_in db current_user in
  ¬ fails_with Validation r.2 ∧
  ∀ task',
    r.2 = inr task' →
    query_task r.1 task_id = Some task' ∧
    (∀ s, TaskBase.status task_in = Some s → Task.status task' = Some s) ∧
    (∀ s, TaskBase.priority task_in = Some s →
          Task.priority task' = Some s) ∧
    ∃ task,
      query_task db task_id = Some task ∧
      ∀ field,
        field ≠ attr_due_date →
        getattr task' field = patched task_in task field.
Proof.
  intros r. split.
  - unfold r, update_task, Validation.
    destruct (query_task db task_id) as [task|]; [|simpl; lia].
    destruct (update_denied current_user task); [simpl; lia|].
    destruct (_apply_task_updates _ _ _ _ _). simpl. tauto.
  - intros task'. unfold r, update_task.
    destruct (query_task db task_id) as [task|] eqn:Hq; [|done].
    destruct (update_denied current_user task); [done|].
    pose proof (apply_task_updates_getattr str_datetime task task_in db
                  (User.id current_user)) as Hget.
    destruct (_apply_task_updates _ _ _ _ _) as [task1 db1].
    simpl in *. intros [= <-].
    split_and!; [apply query_task_put_task| | |by exists task].
    + intros s Hs. specialize (Hget attr_status).
      rewrite (patched_status _ _ _ Hs) in Hget.
      apply fmap_Some in Hget as (s' & Hs' & [= ->]). exact Hs'.
    + intros s Hs. specialize (Hget attr_priority).
      rewrite (patched_priority _ _ _ Hs) in Hget.
      apply fmap_Some in Hget as (s' & Hs' & [= ->]). exact Hs'.
Qed.

Lemma update_task_stores_status_unchecked_witness :
  ∃ task',
    (update_task epoch_str 1 bogus_status (open_session office) ann).2 =
      inr task' ∧
    Task.status task' = Some "bogus".
Proof.
  destruct (update_task epoch_str 1 bogus_status (open_session office) ann).2
    as [e|task'] eqn:Hr; [discriminate Hr|].
  destruct (update_task_stores_status_unchecked epoch_str 1 bogus_status
              (open_session office) ann) as (_ & Hok).
  destruct (Hok task' Hr) as (_ & Hstatus & _).
  exists task'. split; [reflexivity|]. by apply Hstatus.
Defined.

(** ** Dependencies *)

(** C7: [add_dependency] of a task on itself is answered 400, whether or
    not the task exists, and the session is left as it was: no lookup has
    been made, no [TaskDependency] row and no [TaskEvent] added. *)
Theorem add_dependency_rejects_self task_id db current_user :
  let r := add_dependency task_id task_id db current_user in
  r = (db, inl (HTTPException.mk 400 "Task cannot depend on itself")) ∧
  fails_with Validation r.2.
Proof. unfold add_dependency. by rewrite decide_True. Qed.

Lemma query_dependency_rows db task_id depends_on_id :
  query_dependency db task_id depends_on_id =
    head (dependency_rows (view db) task_id depends_on_id).
Proof.
  unfold query_dependency, dependency_rows.
  induction (task_dependencies (view db)) as [|dep deps IH]; [done|].
  simpl. rewrite filter_cons.
  destruct (decide (TaskDependency.task_id dep = task_id)) as [Ht|Ht];
    destruct (decide (TaskDependency.depends_on_id dep = depends_on_id))
      as [Hd|Hd].
  - rewrite !bool_decide_eq_true_2 by done. by rewrite decide_True.
  - rewrite (bool_decide_eq_false_2 (_ = depends_on_id)) by done.
    rewrite andb_false_r, decide_False by tauto. done.
  - rewrite (bool_decide_eq_false_2 (_ = task_id)) by done.
    rewrite decide_False by tauto. done.
  - rewrite (bool_decide_eq_false_2 (_ = task_id)) by done.
    rewrite decide_False by tauto. done.
Qed.

(** What [add_dependency] does for two distinct tasks that exist. *)
Lemma add_dependency_found task_id depends_on_id db current_user :
  task_id ≠ depends_on_id →
  is_Some (query_task db task_id) →
  is_Some (query_task db depends_on_id) →
  add_dependency task_id depends_on_id db current_user =
    match dependency_rows (view db) task_id depends_on_id with
    | _ :: _ => (db, inr "Dependency already exists")
    | [] =>
        (db_commit
           (add_event task_id (Some (User.id current_user)) "add_dependency"
              (Some "depends_on") None (Some (pretty depends_on_id))
              (db_commit (add_dependency_row task_id depends_on_id db))),
         inr "Dependency added")
    end.
Proof.
  intros Hne [t Ht] [t' Ht']. unfold add_dependency.
  rewrite decide_False, Ht, Ht', query_dependency_rows by done.
  by destruct (dependency_rows _ _ _).
Qed.

(** The session after a dependency was inserted and its event recorded. *)
Lemma dependency_added task_id depends_on_id db user_id :
  let db1 :=
    db_commit
      (add_event task_id user_id "add_dependency" (Some "depends_on") None
         (Some (pretty depends_on_id))
         (db_commit (add_dependency_row task_id depends_on_id db))) in
  dependency_rows (view db1) task_id depends_on_id =
    dependency_rows (view db) task_id depends_on_id ++
      [TaskDependency.mk (dependency_seq (view db)) task_id depends_on_id] ∧
  dependency_events (view db1) task_id depends_on_id =
    dependency_events (view db) task_id depends_on_id ++
      [TaskEvent.mk (event_seq (view db)) task_id user_id "add_dependency"
         (Some "depends_on") None (Some (pretty depends_on_id))] ∧
  tasks (view db1) = tasks (view db).
Proof.
  unfold dependency_rows, dependency_events; simpl.
  rewrite !filter_app, !filter_cons_True by done. done.
Qed.

(** [add_dependency] keeps every pair in step, whatever it answers. *)
Lemma add_dependency_keeps_in_step task_id depends_on_id db current_user :
  dependencies_in_step (view db) →
  dependencies_in_step
    (view (add_dependency task_id depends_on_id db current_user).1).
Proof.
  intros Hstep. unfold add_dependency.
  destruct (decide (task_id = depends_on_id)); [done|].
  destruct (query_task db task_id) as [task|]; [|done].
  destruct (query_task db depends_on_id) as [depends_on|]; [|done].
  rewrite query_dependency_rows.
  destruct (dependency_rows (view db) task_id depends_on_id) eqn:Hrows;
    [|done].
  cbn [head fst]. intros t d.
  unfold dependency_rows, dependency_events; simpl. rewrite !filter_app.
  destruct (Hstep t d) as [Heq Hle].
  destruct (decide (t = task_id ∧ d = depends_on_id)) as [[-> ->]|Hne].
  - rewrite !filter_cons_True by done.
    unfold dependency_rows, dependency_events in *.
    rewrite Hrows in *. simpl in Heq. symmetry in Heq.
    apply nil_length_inv in Heq. rewrite Heq. simpl. lia.
  - rewrite !filter_cons_False, !filter_nil, !app_nil_r; [done|..].
    + simpl. intros (Ht & _ & [= Hd]). apply (inj pretty) in Hd.
      by destruct Hne.
    + simpl. intros [Ht Hd]. by destruct Hne.
Qed.

Lemma empty_db_in_step : dependencies_in_step empty_db.
Proof. intros t d. split; [done|]. simpl. lia. Qed.

(** C8, as stated, fails: [add_dependency] commits the row before it
    records the event, and the state of that first commit holds the row of
    the pair without its event.  On that state both of two calls answer
    that the dependency already exists, and the pair is left with one row
    and no [add_dependency] event. *)
Lemma add_dependency_twice_on_row_without_event :
  ∃ d,
    commits (add_dependency 1 2 (open_session office) ann).1 !! 0%nat =
      Some d ∧
    is_Some (query_task (open_session d) 1) ∧
    is_Some (query_task (open_session d) 2) ∧
    let r1 := add_dependency 1 2 (open_session d) ann in
    let r2 := add_dependency 1 2 r1.1 ann in
    r1.2 = inr "Dependency already exists" ∧
    r2.2 = inr "Dependency already exists" ∧
    length (dependency_rows (view r2.1) 1 2) = 1%nat ∧
    dependency_events (view r2.1) 1 2 = [].
Proof.
  eexists. split; [reflexivity|].
  split; [by eexists|]. split; [by eexists|].
  split_and!; reflexivity.
Qed.

(** C8, as amended: for two distinct existing tasks whose pair has as many
    rows as [add_dependency] events, and at most one (none for a new
    pair), two calls of [add_dependency] in a row leave exactly one
    [TaskDependency] row and exactly one [add_dependency] event for the
    pair; the first call succeeds, and the second changes nothing and
    answers that the dependency already exists. *)
Theorem add_dependency_is_idempotent task_id depends_on_id db current_user :
  task_id ≠ depends_on_id →
  is_Some (query_task db task_id) →
  is_Some (query_task db depends_on_id) →
  length (dependency_rows (view db) task_id depends_on_id) =
    length (dependency_events (view db) task_id depends_on_id) →
  (length (dependency_rows (view db) task_id depends_on_id) ≤ 1)%nat →
  let r1 := add_dependency task_id depends_on_id db current_user in
  let r2 := add_dependency task_id depends_on_id r1.1 current_user in
  (∃ detail, r1.2 = inr detail) ∧
  r2 = (r1.1, inr "Dependency already exists") ∧
  length (dependency_rows (view r2.1) task_id depends_on_id) = 1%nat ∧
  length (dependency_events (view r2.1) task_id depends_on_id) = 1%nat.
Proof.
  intros Hne Ht Hd Hledger Hone r1 r2. unfold r2, r1. clear r1 r2.
  rewrite (add_dependency_found _ _ db) by done.
  destruct (dependency_rows (view db) task_id depends_on_id)
    as [|dep rows] eqn:Hrows.
  - destruct (dependency_added task_id depends_on_id db
                (Some (User.id current_user))) as (Hrows1 & Hevents1 & Htasks).
    cbn [fst snd]. rewrite add_dependency_found; [|done|..].
    + simpl in Hledger. symmetry in Hledger.
      apply nil_length_inv in Hledger.
      rewrite Hrows1, Hrows. cbn [app fst snd].
      rewrite Hrows1, Hevents1, Hrows, Hledger.
      split_and!; [by eexists|done..].
    + unfold query_task in *. by rewrite Htasks.
    + unfold query_task in *. by rewrite Htasks.
  - cbn [fst snd]. rewrite add_dependency_found, Hrows by done.
    cbn [fst snd length] in *. rewrite Hrows. cbn [length].
    split_and!; [by eexists|done|lia|lia].
Qed.

Lemma add_dependency_is_idempotent_witness :
  let r1 := add_dependency 1 2 (open_session office) ann in
  let r2 := add_dependency 1 2 r1.1 ann in
  r1.2 = inr "Dependency added" ∧
  r2.2 = inr "Dependency already exists" ∧
  length (dependency_rows (view r2.1) 1 2) = 1%nat ∧
  length (dependency_events (view r2.1) 1 2) = 1%nat.
Proof.
  destruct (add_dependency_is_idempotent 1 2 (open_session office) ann)
    as (_ & Hr2 & Hrows & Hevents).
  - done.
  - by eexists.
  - by eexists.
  - reflexivity.
  - simpl. lia.
  - split_and!; [reflexivity| |exact Hrows|exact Hevents].
    by rewrite Hr2.
Defined.

(** ** Creation *)

(** C1, as stated, fails: [create_task] commits the new task before it
    adds the [create] event, so the log of committed states holds one in
    which the task is persisted and has no [create] event. *)
Lemma create_task_commits_task_without_event :
  let r := create_task release_input (open_session empty_db) ann in
  ∃ d task,
    d ∈ commits r.1 ∧ tasks d !! 1 = Some task ∧ r.2 = inr task ∧
    create_events d 1 = [].
Proof.
  eexists _, _. split_and!.
  - apply list_elem_of_here.
  - reflexivity.
  - reflexivity.
  - reflexivity.
Qed.

(** C1, as amended: [create_task] does not create the task and its
    [create] event in one unit of work.  Whenever it returns the new task,
    it has made two commits: the first makes the task durable, with the
    events as they were, the second adds its [create] event.  When no
    [create] event was on record for the key the task takes, the task has
    no [create] event in the first committed state and exactly one in the
    second, which is the state [create_task] leaves. *)
Theorem create_task_commits_twice task_in db current_user task :
  let r := create_task task_in db current_user in
  r.2 = inr task →
  ∃ d1 d2,
    Task.id task = task_seq (view db) ∧
    commits r.1 = commits db ++ [d1; d2] ∧ view r.1 = d2 ∧
    tasks d1 !! Task.id task = Some task ∧
    tasks d2 !! Task.id task = Some task ∧
    task_events d1 = task_events (view db) ∧
    task_events d2 =
      task_events (view db) ++
        [create_event_of (event_seq (view db)) (Task.id task)
           (User.id current_user)] ∧
    (create_events (view db) (task_seq (view db)) = [] →
     create_events d1 (Task.id task) = [] ∧
     length (create_events d2 (Task.id task)) = 1%nat).
Proof.
  intros r. unfold r, create_task. clear r.
  assert (∃ tgs new,
    match TaskCreate.tag_names task_in with
    | Some (name :: rest) => resolve_tags (name :: rest) [] db
    | _ => ([], db)
    end = (tgs, extend_tags new db)) as (tgs & new & ->).
  { destruct (TaskCreate.tag_names task_in) as [[|name rest]|].
    - exists [], []. by rewrite extend_tags_nil.
    - destruct (resolve_tags_extend (name :: rest) [] db)
        as (tgs & new & -> & _). by exists tgs, new.
    - exists [], []. by rewrite extend_tags_nil. }
  simpl. intros [= <-]. eexists _, _.
  split_and!;
    [reflexivity
    | rewrite <- app_assoc; reflexivity
    | reflexivity
    | apply lookup_insert_eq | apply lookup_insert_eq
    | reflexivity | reflexivity | ].
  intros Hnone. unfold create_events in *. simpl.
  rewrite filter_app, Hnone. split; [done|].
  by rewrite filter_cons_True.
Qed.

Lemma create_task_commits_twice_witness :
  create_events empty_db (task_seq empty_db) = [] ∧
  (let r := create_task release_input (open_session empty_db) ann in
   ∃ task d1 d2,
     r.2 = inr task ∧ commits r.1 = [d1; d2] ∧
     create_events d1 (Task.id task) = [] ∧
     length (create_events d2 (Task.id task)) = 1%nat).
Proof.
  split; [reflexivity|].
  destruct (create_task release_input (open_session empty_db) ann).2
    as [e|task] eqn:Hr; [discriminate Hr|].
  destruct (create_task_commits_twice release_input (open_session empty_db)
              ann task Hr)
    as (d1 & d2 & _ & Hcommits & _ & _ & _ & _ & _ & Hcount).
  destruct Hcount as [Hfirst Hsecond]; [reflexivity|].
  exists task, d1, d2. split_and!; [exact Hr|exact Hcommits|done..].
Defined.

(** ** Bulk update *)

Lemma resolve_tags_with_tasks m names : ∀ acc db,
  resolve_tags names acc (with_tasks m db) =
    ((resolve_tags names acc db).1,
     with_tasks m (resolve_tags names acc db).2).
Proof.
  induction names as [|name rest IH]; intros acc db; cbn [resolve_tags].
  { done. }
  change (query_tag (with_tasks m db) name) with (query_tag db name).
  destruct (query_tag db name) as [tag|]; [apply IH|].
  change (add_tag name (with_tasks m db))
    with ((add_tag name db).1, with_tasks m (add_tag name db).2).
  destruct (add_tag name db) as [tag db1]. apply IH.
Qed.

Lemma record_changes_with_tasks str_datetime m task user_id changed : ∀ db,
  record_changes str_datetime task user_id changed (with_tasks m db) =
    with_tasks m (record_changes str_datetime task user_id changed db).
Proof.
  unfold record_changes.
  induction changed as [|[[field old] new] changed IH]; intros db; [done|].
  cbn [foldl]. rewrite <- IH. done.
Qed.

Lemma apply_task_updates_with_tasks str_datetime m task data db user_id :
  _apply_task_updates str_datetime task data (with_tasks m db) user_id =
    ((_apply_task_updates str_datetime task data db user_id).1,
     with_tasks m (_apply_task_updates str_datetime task data db user_id).2).
Proof.
  unfold _apply_task_updates. rewrite !compute_changes_eq.
  change (collaborators_after data (with_tasks m db) task)
    with (collaborators_after data db task).
  destruct (TaskBase.tag_names data) as [tag_names|].
  - rewrite resolve_tags_with_tasks.
    destruct (resolve_tags tag_names [] db) as [tgs db1]; simpl.
    by rewrite record_changes_with_tasks.
  - simpl. by rewrite record_changes_with_tasks.
Qed.

Lemma apply_task_updates_tasks str_datetime task data db user_id :
  tasks (view (_apply_task_updates str_datetime task data db user_id).2) =
    tasks (view db).
Proof.
  unfold _apply_task_updates.
  destruct (compute_changes_spec task data db) as (tgs & new & -> & _).
  destruct (record_changes_extend str_datetime
              (set_collaborators (set_tags (apply_scalars task data).1 tgs)
                 (collaborators_after data db task))
              user_id
              ((apply_scalars task data).2 ++ relation_changes data)
              (extend_tags new db)) as (events & -> & _).
  reflexivity.
Qed.

Lemma put_tasks_with_tasks objs db :
  put_tasks objs db = with_tasks (objs ∪ tasks (view db)) db.
Proof. reflexivity. Qed.

Lemma put_task_with_tasks key task m db :
  put_task key task (with_tasks m db) = with_tasks (<[key := task]> m) db.
Proof. reflexivity. Qed.

(** The loop of [bulk_update_tasks], which patches the objects of its
    dict and flushes them at the end, against the item-by-item reading:
    the dict over the stale rows is the table the specification sees. *)
Lemma bulk_loop_refines str_datetime current_user items :
  ∀ objs updated db,
    (∀ k, k ∈ BulkTaskUpdateItem.id <$> items →
          objs !! k = None → tasks (view db) !! k = None) →
    (∀ k, k ∈ updated → is_Some (objs !! k)) →
    ∃ objs' ids db',
      foldl (bulk_step str_datetime current_user) (objs, updated, db) items =
        (objs', updated ++ ids, db') ∧
      bulk_update_spec str_datetime current_user items (put_tasks objs db) =
        (ids, put_tasks objs' db') ∧
      (∀ k, k ∈ updated ++ ids → is_Some (objs' !! k)).
Proof.
  induction items as [|item rest IH]; intros objs updated db Hstale Hupd.
  { exists objs, [], db. by rewrite app_nil_r. }
  cbn [foldl bulk_update_spec]. unfold bulk_step at 2.
  set (k := BulkTaskUpdateItem.id item).
  assert (query_task (put_tasks objs db) k = objs !! k) as ->.
  { unfold query_task; simpl. rewrite lookup_union.
    destruct (objs !! k) eqn:Hk; simpl.
    - by destruct (tasks (view db) !! k).
    - rewrite Hstale; [done| |done]. rewrite fmap_cons. by left. }
  assert (∀ k', k' ∈ BulkTaskUpdateItem.id <$> rest →
                objs !! k' = None → tasks (view db) !! k' = None) as Hrest.
  { intros k' Hin. apply Hstale. rewrite fmap_cons. by right. }
  destruct (objs !! k) as [task|] eqn:Hk; [|by apply IH].
  destruct (update_denied current_user task) eqn:Hden.
  { rewrite decide_False; [by apply IH|].
    rewrite <- update_denied_false. by rewrite Hden. }
  rewrite decide_True by by apply update_denied_false.
  rewrite put_tasks_with_tasks, apply_task_updates_with_tasks.
  pose proof (apply_task_updates_tasks str_datetime task
                (BulkTaskUpdateItem.to_TaskUpdate item) db
                (User.id current_user)) as Htasks.
  destruct (_apply_task_updates str_datetime task
              (BulkTaskUpdateItem.to_TaskUpdate item) db
              (User.id current_user)) as [task' db1].
  simpl in Htasks. cbn [fst snd].
  destruct (IH (<[k := task']> objs) (updated ++ [k]) db1)
    as (objs' & ids & db' & -> & Hspec & Hupd').
  - intros k' Hin Hnone. apply lookup_insert_None in Hnone as [Hnone _].
    rewrite Htasks. by apply Hrest.
  - intros k' [Hin| ->%list_elem_of_singleton]%elem_of_app.
    + destruct (decide (k = k')) as [->|Hne].
      * rewrite lookup_insert_eq. by eexists.
      * rewrite lookup_insert_ne by done. by apply Hupd.
    + rewrite lookup_insert_eq. by eexists.
  - exists objs', (k :: ids), db'.
    rewrite put_task_with_tasks, insert_union_l, <- Htasks,
      <- put_tasks_with_tasks, Hspec.
    rewrite <- app_assoc in *. done.
Qed.

Lemma query_tasks_by_id_lookup db task_ids k :
  k ∈ task_ids →
  query_tasks_by_id db task_ids !! k = tasks (view db) !! k.
Proof.
  intros Hin. unfold query_tasks_by_id.
  destruct (tasks (view db) !! k) as [task|] eqn:Hk.
  - by apply map_lookup_filter_Some.
  - apply map_lookup_filter_None. by left.
Qed.

Lemma put_tasks_query_tasks_by_id db task_ids :
  put_tasks (query_tasks_by_id db task_ids) db = db.
Proof.
  unfold put_tasks, query_tasks_by_id.
  rewrite (map_subseteq_union _ (tasks (view db))) by apply map_filter_subseteq.
  by destruct db as [[] ?].
Qed.

Lemma query_task_put_task_is_Some key task db k :
  is_Some (query_task db key) →
  is_Some (query_task (put_task key task db) k) ↔ is_Some (query_task db k).
Proof.
  unfold query_task; simpl. intros Hkey.
  destruct (decide (key = k)) as [->|Hne].
  - rewrite lookup_insert_eq. split; [done|by eexists].
  - by rewrite lookup_insert_ne.
Qed.

Lemma query_task_apply_task_updates str_datetime task data db user_id k :
  query_task (_apply_task_updates str_datetime task data db user_id).2 k =
    query_task db k.
Proof. unfold query_task. by rewrite apply_task_updates_tasks. Qed.

(** The specification neither creates nor removes a task. *)
Lemma bulk_update_spec_resolves str_datetime actor items : ∀ db k,
  is_Some (query_task (bulk_update_spec str_datetime actor items db).2 k) ↔
  is_Some (query_task db k).
Proof.
  induction items as [|item rest IH]; intros db k; cbn [bulk_update_spec].
  { done. }
  destruct (query_task db (BulkTaskUpdateItem.id item)) as [task|] eqn:Hq;
    [|apply IH].
  destruct (decide (may_update actor task)); [|apply IH].
  pose proof (query_task_apply_task_updates str_datetime task
                (BulkTaskUpdateItem.to_TaskUpdate item) db (User.id actor))
    as Hsame.
  destruct (_apply_task_updates _ _ _ _ _) as [task' db'].
  specialize (IH (put_task (BulkTaskUpdateItem.id item) task' db') k).
  destruct (bulk_update_spec _ _ rest _) as [ids db'']. simpl in *.
  rewrite IH, query_task_put_task_is_Some, Hsame; [done|].
  rewrite Hsame, Hq. by eexists.
Qed.

Lemma bulk_update_spec_ids str_datetime actor items : ∀ db,
  let s := bulk_update_spec str_datetime actor items db in
  s.1 `sublist_of` (BulkTaskUpdateItem.id <$> items) ∧
  ∀ k, k ∈ s.1 → is_Some (query_task db k).
Proof.
  induction items as [|item rest IH]; intros db; cbn [bulk_update_spec].
  { split; [constructor|]. by intros k ?%elem_of_nil. }
  rewrite fmap_cons.
  destruct (query_task db (BulkTaskUpdateItem.id item)) as [task|] eqn:Hq.
  2: { destruct (IH db) as [Hsub Hres]. split; [by constructor|done]. }
  destruct (decide (may_update actor task)).
  2: { destruct (IH db) as [Hsub Hres]. split; [by constructor|done]. }
  pose proof (query_task_apply_task_updates str_datetime task
                (BulkTaskUpdateItem.to_TaskUpdate item) db (User.id actor))
    as Hsame.
  destruct (_apply_task_updates _ _ _ _ _) as [task' db'].
  destruct (IH (put_task (BulkTaskUpdateItem.id item) task' db'))
    as [Hsub Hres].
  destruct (bulk_update_spec _ _ rest _) as [ids db'']. simpl in *.
  split; [by constructor|].
  intros k [->|Hin]%elem_of_cons; [rewrite Hq; by eexists|].
  apply Hres in Hin.
  apply query_task_put_task_is_Some in Hin; [by rewrite <- Hsame|].
  rewrite Hsame, Hq. by eexists.
Qed.

(** An admin or a manager is never denied: every item that resolves is
    applied. *)
Lemma bulk_update_spec_privileged str_datetime actor items : ∀ db,
  User.role actor ∈ ["admin"; "manager"] →
  (bulk_update_spec str_datetime actor items db).1 = resolving_ids db items.
Proof.
  intros db Hrole. revert db.
  assert (∀ task, may_update actor task) as Hmay.
  { intros task. unfold may_update.
    apply elem_of_cons in Hrole as [?|Hrole]; [by left|].
    apply elem_of_cons in Hrole as [?|Hrole]; [by right; left|].
    by apply elem_of_nil in Hrole. }
  unfold resolving_ids.
  induction items as [|item rest IH]; intros db; cbn [bulk_update_spec].
  { done. }
  rewrite fmap_cons.
  destruct (query_task db (BulkTaskUpdateItem.id item)) as [task|] eqn:Hq.
  2: { rewrite filter_cons_False; [apply IH|]. rewrite Hq. by intros [? ?]. }
  rewrite decide_True by apply Hmay.
  pose proof (query_task_apply_task_updates str_datetime task
                (BulkTaskUpdateItem.to_TaskUpdate item) db (User.id actor))
    as Hsame.
  destruct (_apply_task_updates _ _ _ _ _) as [task' db'].
  specialize (IH (put_task (BulkTaskUpdateItem.id item) task' db')).
  destruct (bulk_update_spec _ _ rest _) as [ids db'']. simpl in *.
  rewrite filter_cons_True by (rewrite Hq; by eexists).
  rewrite IH. f_equal. apply list_filter_iff. intros k.
  rewrite query_task_put_task_is_Some, Hsame; [done|].
  rewrite Hsame, Hq. by eexists.
Qed.

(** An actor who may update no task of the database updates nothing. *)
Lemma bulk_update_spec_denied str_datetime actor items db :
  (∀ k task, query_task db k = Some task → ¬ may_update actor task) →
  bulk_update_spec str_datetime actor items db = ([], db).
Proof.
  intros Hdenied.
  induction items as [|item rest IH]; cbn [bulk_update_spec]; [done|].
  destruct (query_task db (BulkTaskUpdateItem.id item)) as [task|] eqn:Hq;
    [|done].
  rewrite decide_False; [done|]. by eapply Hdenied.
Qed.

Lemma omap_lookup_agree {A} (f g : Z → option A) (l : list Z) :
  (∀ k, k ∈ l → f k = g k) → omap f l = omap g l.
Proof.
  intros Hfg. apply list_omap_ext, Forall_Forall2_diag, Forall_forall.
  exact Hfg.
Qed.

Lemma omap_length_is_Some {A} (f : Z → option A) (l : list Z) :
  (∀ k, k ∈ l → is_Some (f k)) → length (omap f l) = length l.
Proof.
  induction l as [|k l IH]; intros Hf; [done|].
  assert (length (omap f l) = length l) as Htail.
  { apply IH. intros k' Hin. apply Hf. by right. }
  destruct (Hf k) as [a Ha]; [by left|].
  change (omap f (k :: l))
    with (match f k with Some y => y :: omap f l | None => omap f l end).
  rewrite Ha. simpl. by rewrite Htail.
Qed.

(** The loop of [bulk_update_tasks] and its commit, item by item. *)
Lemma bulk_update_tasks_eq str_datetime items db current_user :
  bulk_update_tasks str_datetime items db current_user =
    let s := bulk_update_spec str_datetime current_user items db in
    (db_commit s.2, inr (omap (query_task s.2) s.1)).
Proof.
  unfold bulk_update_tasks.
  destruct (bulk_loop_refines str_datetime current_user items
              (query_tasks_by_id db (BulkTaskUpdateItem.id <$> items)) [] db)
    as (objs' & ids & db' & -> & Hspec & Hupd).
  - intros k Hin Hnone. by rewrite query_tasks_by_id_lookup in Hnone.
  - by intros k ?%elem_of_nil.
  - rewrite put_tasks_query_tasks_by_id in Hspec. rewrite Hspec.
    cbn [fst snd app]. do 2 f_equal. apply omap_lookup_agree.
    intros k Hin. destruct (Hupd k Hin) as [task Hk].
    unfold query_task; simpl. by rewrite lookup_union, Hk, union_Some_l.
Qed.

Lemma apply_task_updates_created_by str_datetime task data db user_id :
  Task.created_by_id (_apply_task_updates str_datetime task data db user_id).1 =
    Task.created_by_id task.
Proof.
  unfold _apply_task_updates.
  destruct (compute_changes_spec task data db) as (tgs & new & -> & _).
  simpl. destruct (apply_scalars_frame task data) as (_ & Hcr & _).
  rewrite <- Hcr. by destruct (apply_scalars task data).1.
Qed.

Lemma may_always_update_may_update actor task :
  may_always_update actor task → may_update actor task.
Proof. unfold may_update. intros [?|[?|?]]; tauto. Qed.

Lemma query_task_put_task_ne key task db k :
  key ≠ k → query_task (put_task key task db) k = query_task db k.
Proof. intros Hne. unfold query_task; simpl. by rewrite lookup_insert_ne. Qed.

(** The items a batch applies, and what they leave: each task holds, for
    each attribute, the value of the last applied item that names it and
    carries the attribute, and the value it had when no applied item
    does.  Every item of a task the actor may always update is applied. *)
Lemma bulk_update_spec_applied str_datetime actor items : ∀ db,
  ∃ applied,
    applied `sublist_of` items ∧
    BulkTaskUpdateItem.id <$> applied =
      (bulk_update_spec str_datetime actor items db).1 ∧
    (∀ k task,
       query_task db k = Some task →
       ∃ task',
         query_task (bulk_update_spec str_datetime actor items db).2 k =
           Some task' ∧
         Task.created_by_id task' = Task.created_by_id task ∧
         ∀ field,
           getattr task' field =
             match last_supplied field k applied with
             | Some v => Some v
             | None => getattr task field
             end) ∧
    (∀ item task,
       item ∈ items →
       query_task db (BulkTaskUpdateItem.id item) = Some task →
       may_always_update actor task →
       item ∈ applied).
Proof.
  induction items as [|item rest IH]; intros db; cbn [bulk_update_spec].
  { exists []. split_and!; [done|done| |by intros ? ? ?%elem_of_nil].
    intros k task Hk. by exists task. }
  destruct (query_task db (BulkTaskUpdateItem.id item)) as [task0|] eqn:Hq.
  2: { destruct (IH db) as (applied & Hsub & Hids & Hval & Hall).
       exists applied. split_and!; [by constructor|done|done|].
       intros item' task [->|Hin]%elem_of_cons Hq' Hmay; [congruence|].
       by eapply Hall. }
  destruct (decide (may_update actor task0)) as [Hmay0|Hmay0].
  2: { destruct (IH db) as (applied & Hsub & Hids & Hval & Hall).
       exists applied. split_and!; [by constructor|done|done|].
       intros item' task [->|Hin]%elem_of_cons Hq' Hmay.
       - destruct Hmay0. apply may_always_update_may_update. congruence.
       - by eapply Hall. }
  pose proof (query_task_apply_task_updates str_datetime task0
                (BulkTaskUpdateItem.to_TaskUpdate item) db (User.id actor))
    as Hsame.
  pose proof (apply_task_updates_created_by str_datetime task0
                (BulkTaskUpdateItem.to_TaskUpdate item) db (User.id actor))
    as Hcr.
  pose proof (apply_task_updates_getattr str_datetime task0
                (BulkTaskUpdateItem.to_TaskUpdate item) db (User.id actor))
    as Hget.
  destruct (_apply_task_updates _ _ _ _ _) as [task1 db1].
  destruct (IH (put_task (BulkTaskUpdateItem.id item) task1 db1))
    as (applied & Hsub & Hids & Hval & Hall).
  destruct (bulk_update_spec _ _ rest _) as [ids db2]. cbn [fst snd] in *.
  exists (item :: applied). split_and!.
  - by constructor.
  - rewrite fmap_cons. by f_equal.
  - intros k task Hk.
    destruct (decide (BulkTaskUpdateItem.id item = k)) as [Heq|Hne].
    + subst k. assert (task0 = task) as -> by congruence.
      destruct (Hval (BulkTaskUpdateItem.id item) task1)
        as (task' & Hk' & Hcr' & Hget'); [apply query_task_put_task|].
      exists task'. split_and!; [done|congruence|].
      intros field. rewrite Hget', Hget. cbn [last_supplied].
      rewrite decide_True by done. unfold patched.
      destruct (last_supplied field _ applied); [done|].
      by destruct (data_attr _ field).
    + destruct (Hval k task) as (task' & Hk' & Hcr' & Hget').
      { rewrite query_task_put_task_ne, Hsame by done. done. }
      exists task'. split_and!; [done..|].
      intros field. rewrite Hget'. cbn [last_supplied].
      rewrite decide_False by done.
      by destruct (last_supplied field _ applied).
  - intros item' task [->|Hin]%elem_of_cons Hq' Hmay; [by left|].
    right.
    destruct (decide (BulkTaskUpdateItem.id item =
                      BulkTaskUpdateItem.id item')) as [Heq|Hne].
    + apply (Hall item' task1); [done| |].
      * rewrite <- Heq. apply query_task_put_task.
      * assert (task0 = task) as -> by congruence.
        unfold may_always_update in *. by rewrite Hcr.
    + apply (Hall item' task); [done| |done].
      rewrite query_task_put_task_ne, Hsame by done. done.
Qed.

(** C4, as stated, fails: the admin sends a batch whose one item names
    task 2 and carries no value.  The task is listed in the result, and
    it was not updated: the database is as it was, no attribute changed
    and no event recorded. *)
Lemma bulk_update_tasks_lists_unchanged_task :
  let r := bulk_update_tasks epoch_str [touch 2] (open_session office) bob in
  r.2 = inr [write_notes] ∧
  query_task (open_session office) 2 = Some write_notes ∧
  view r.1 = office.
Proof. split_and!; reflexivity. Qed.

(** C4, as amended: [bulk_update_tasks] raises neither 404 nor 403.
    Whenever it returns, it has passed over each item whose task id does
    not resolve or whose actor is denied the update when the item is
    reached, and applied the others, in the order of the batch; it lists
    one task for each applied item, in that order, as the task is in the
    end, whether or not the item changed anything.  The items passed over
    have no effect: every task holds, for every attribute, the value of
    the last applied item that names it and carries the attribute, and
    the value it had when there is none.  Every item of a task the actor
    may always update (as admin, manager or creator) is applied; for an
    admin or a manager the applied items are the ones whose id resolves,
    and for an actor who may update no task none is. *)
Theorem bulk_update_tasks_lists_applied_items
    str_datetime items db current_user :
  let r := bulk_update_tasks str_datetime items db current_user in
  let s := bulk_update_spec str_datetime current_user items db in
  ¬ fails_with NotFound r.2 ∧ ¬ fails_with Forbidden r.2 ∧
  ∀ result,
    r.2 = inr result →
    ∃ applied,
      applied `sublist_of` items ∧
      result = omap (query_task r.1) (BulkTaskUpdateItem.id <$> applied) ∧
      length result = length applied ∧
      (∀ item, item ∈ applied →
               is_Some (query_task db (BulkTaskUpdateItem.id item))) ∧
      (∀ k task,
         query_task db k = Some task →
         ∃ task',
           query_task r.1 k = Some task' ∧
           ∀ field,
             getattr task' field =
               match last_supplied field k applied with
               | Some v => Some v
               | None => getattr task field
               end) ∧
      (∀ item task,
         item ∈ items →
         query_task db (BulkTaskUpdateItem.id item) = Some task →
         may_always_update current_user task →
         item ∈ applied) ∧
      (User.role current_user ∈ ["admin"; "manager"] →
       BulkTaskUpdateItem.id <$> applied = resolving_ids db items) ∧
      ((∀ k task,
          query_task db k = Some task → ¬ may_update current_user task) →
       applied = [] ∧ view r.1 = view db) ∧
      BulkTaskUpdateItem.id <$> applied = s.1 ∧
      r.1 = db_commit s.2.
Proof.
  intros r s. unfold r. rewrite bulk_update_tasks_eq. fold s. cbn [fst snd].
  split; [simpl; tauto|]. split; [simpl; tauto|].
  intros result [= <-].
  destruct (bulk_update_spec_applied str_datetime current_user items db)
    as (applied & Hsub & Hids & Hval & Hall).
  fold s in Hids, Hval.
  destruct (bulk_update_spec_ids str_datetime current_user items db)
    as [_ Hres].
  fold s in Hres.
  assert (∀ k, k ∈ s.1 → is_Some (query_task s.2 k)) as Hres'.
  { intros k Hin. apply bulk_update_spec_resolves. by apply Hres. }
  exists applied. rewrite Hids.
  split_and!; [done|done| | | | | | |done|done].
  - rewrite omap_length_is_Some by done.
    by rewrite <- Hids, length_fmap.
  - intros item Hin. apply Hres. rewrite <- Hids.
    by apply list_elem_of_fmap_2.
  - intros k task Hk. destruct (Hval k task Hk) as (task' & ? & _ & ?).
    by exists task'.
  - done.
  - intros Hrole. by apply bulk_update_spec_privileged.
  - intros Hdenied.
    pose proof (bulk_update_spec_denied str_datetime current_user items db
                  Hdenied) as Hs.
    fold s in Hs. rewrite Hs in Hids. cbn [fst snd] in *.
    split; [by apply fmap_nil_inv in Hids|]. by rewrite Hs.
Qed.

Lemma bulk_update_tasks_lists_applied_items_witness :
  let batch := [set_status 7 "done"; set_status 2 "blocked"; reassign 1 4;
                set_status 2 "done"] in
  let r := bulk_update_tasks epoch_str batch (open_session office) bob in
  ∃ result applied,
    r.2 = inr result ∧
    User.role bob ∈ ["admin"; "manager"] ∧
    query_task (open_session office) 2 = Some write_notes ∧
    may_always_update bob write_notes ∧
    BulkTaskUpdateItem.id <$> applied = [2; 1; 2] ∧
    length result = 3%nat ∧
    set_status 2 "done" ∈ applied ∧
    ∃ task',
      query_task r.1 2 = Some task' ∧
      getattr task' attr_priority = Some (VStr "low").
Proof.
  intros batch r.
  destruct r.2 as [e|result] eqn:Hr; [discriminate Hr|].
  assert (User.role bob ∈ ["admin"; "manager"]) as Hbob by left.
  assert (may_always_update bob write_notes) as Hmay by by left.
  destruct (bulk_update_tasks_lists_applied_items epoch_str batch
              (open_session office) bob) as (_ & _ & Hok).
  destruct (Hok result Hr)
    as (applied & Hsub & _ & Hlen & _ & Hval & Hall & Hadmin & _).
  specialize (Hadmin Hbob).
  destruct (Hval 2 write_notes) as (task' & Hk & Hget); [reflexivity|].
  exists result, applied.
  split_and!; [reflexivity|exact Hbob|reflexivity|exact Hmay|exact Hadmin
              | | |].
  - rewrite Hlen, <- (length_fmap BulkTaskUpdateItem.id), Hadmin.
    reflexivity.
  - apply (Hall _ write_notes); [|reflexivity|exact Hmay].
    do 3 right. left.
  - exists task'. split; [exact Hk|].
    rewrite (Hget attr_priority).
    assert (∀ l,
      (∀ item, item ∈ l → BulkTaskUpdateItem.priority item = None) →
      last_supplied attr_priority 2 l = None) as ->; [|reflexivity|].
    + induction l as [|item l IH]; intros Hnone; [done|].
      cbn [last_supplied]. rewrite IH by (intros; apply Hnone; by right).
      case_decide; [|done]. simpl. by rewrite (Hnone item) by left.
    + intros item Hin. apply (elem_of_sublist _ _ _ Hin) in Hsub.
      repeat (apply elem_of_cons in Hsub as [->|Hsub]; [reflexivity|]).
      by apply elem_of_nil in Hsub.
Defined.

(** ** Null and absent keys, at the route *)

(** C10: in a PATCH body an explicit null for a scalar attribute parses to
    the same payload as leaving the key out, and applying it leaves the
    attribute as it is; whatever the payload, an attribute that holds a
    value before the update holds one after it, so neither
    [_apply_task_updates] nor [update_task] ever clears [description],
    [due_date], [assignee_id] or [parent_id]. *)
Theorem null_is_absent_and_nothing_is_cleared
    str_datetime task db user_id field :
  (∀ j,
     TaskUpdate.parse (clear_key field (@Null) j) =
       TaskUpdate.parse (clear_key field (@Absent) j) ∧
     getattr
       (_apply_task_updates str_datetime task
          (TaskUpdate.parse (clear_key field (@Null) j)) db user_id).1 field =
       getattr task field) ∧
  (∀ data,
     is_Some (getattr task field) →
     is_Some
       (getattr (_apply_task_updates str_datetime task data db user_id).1
          field)) ∧
  (∀ task_id data current_user,
     query_task db task_id = Some task →
     is_Some (getattr task field) →
     ∃ task',
       query_task (update_task str_datetime task_id data db current_user).1
         task_id = Some task' ∧
       is_Some (getattr task' field)).
Proof.
  assert (∀ data uid,
    is_Some (getattr task field) →
    is_Some
      (getattr (_apply_task_updates str_datetime task data db uid).1 field))
    as Hkept.
  { intros data uid Hsome. rewrite apply_task_updates_getattr.
    unfold patched. by destruct (data_attr data field). }
  split_and!.
  - intros j. split; [by destruct j, field|].
    rewrite apply_task_updates_getattr. unfold patched.
    by rewrite parse_clear_key.
  - intros data. apply Hkept.
  - intros task_id data current_user Hq Hsome.
    rewrite (update_task_found _ _ _ _ _ _ Hq).
    destruct (update_denied current_user task).
    + by exists task.
    + eexists. split; [apply query_task_put_task|]. by apply Hkept.
Qed.

Lemma null_is_absent_and_nothing_is_cleared_witness :
  is_Some (getattr ship_release attr_description) ∧
  query_task (open_session office) 1 = Some ship_release ∧
  ∃ task',
    query_task
      (update_task epoch_str 1
         (TaskUpdate.parse
            (TaskUpdate.mk_json Absent Null (Present "done") Absent Absent
               Null Null Absent Absent))
         (open_session office) ann).1 1 = Some task' ∧
    is_Some (getattr task' attr_description).
Proof.
  assert (is_Some (getattr ship_release attr_description)) as Hheld.
  { by eexists. }
  split; [exact Hheld|]. split; [reflexivity|].
  destruct (null_is_absent_and_nothing_is_cleared epoch_str ship_release
              (open_session office) 1 attr_description) as (_ & _ & Hroute).
  apply Hroute; [reflexivity|exact Hheld].
Defined.

Example null_description_is_kept :
  let r :=
    update_task epoch_str 1
      (TaskUpdate.parse
         (TaskUpdate.mk_json Absent Null (Present "done") Absent Absent
            Null Null Absent Absent))
      (open_session office) ann in
  ∃ task',
    r.2 = inr task' ∧
    Task.description task' = Some "cut the branch" ∧
    Task.assignee_id task' = Some 3 ∧
    Task.status task' = Some "done" ∧
    update_events (view r.1) =
      [TaskEvent.mk 3 1 (Some 1) "update" (Some "status") (Some "todo")
         (Some "done")].
Proof. vm_compute. eexists. split_and!; reflexivity. Qed.

(** ** Examples for the batch *)

(** cyd, the assignee of task 1, hands it to dan and then tries to set its
    status in the same batch: the second item meets the task as the first
    one left it, and is passed over.  The item for the missing task 7 is
    passed over as well, and task 2, which cyd created, is updated. *)
Example bulk_update_sees_earlier_items :
  let r :=
    bulk_update_tasks epoch_str
      [reassign 1 4; set_status 7 "done"; set_status 1 "done";
       set_status 2 "blocked"]
      (open_session office) cyd in
  ∃ t1 t2,
    r.2 = inr [t1; t2] ∧ Task.id t1 = 1 ∧ Task.id t2 = 2 ∧
    Task.assignee_id t1 = Some 4 ∧ Task.status t1 = Some "todo" ∧
    Task.status t2 = Some "blocked" ∧ length (commits r.1) = 1%nat.
Proof. vm_compute. eexists _, _. split_and!; reflexivity. Qed.

(** An item that resolves and is allowed is applied and listed even when
    it changes nothing, and once for each time it occurs in the batch. *)
Example bulk_update_lists_every_applied_item :
  let r :=
    bulk_update_tasks epoch_str
      [BulkTaskUpdateItem.mk 2 None None None; set_status 2 "todo";
       set_status 2 "done"]
      (open_session office) bob in
  ∃ t,
    r.2 = inr [t; t; t] ∧ Task.id t = 2 ∧ Task.status t = Some "done" ∧
    length (update_events (view r.1)) = 1%nat.
Proof. vm_compute. eexists. split_and!; reflexivity. Qed.

(** ** The audit trail of an update *)

Lemma fold_set_attr_changes data fields : ∀ st,
  NoDup fields →
  (foldl (λ st f, set_attr f (data_attr data f) st) st fields).2 =
    st.2 ++ omap (scalar_change st.1 data) fields.
Proof.
  induction fields as [|f fields IH]; intros st Hnd; cbn [foldl].
  { by rewrite app_nil_r. }
  apply NoDup_cons in Hnd as [Hnotin Hnd]. rewrite IH by done.
  assert (omap (scalar_change (set_attr f (data_attr data f) st).1 data)
            fields = omap (scalar_change st.1 data) fields) as ->.
  { apply list_omap_ext, Forall_Forall2_diag, Forall_forall.
    intros g Hg. unfold scalar_change. rewrite set_attr_getattr.
    rewrite decide_False; [done|]. by intros ->. }
  change (omap (scalar_change st.1 data) (f :: fields))
    with (match scalar_change st.1 data f with
          | Some c => c :: omap (scalar_change st.1 data) fields
          | None => omap (scalar_change st.1 data) fields
          end).
  destruct st as [task changed]. unfold scalar_change at 2, set_attr.
  destruct (data_attr data f) as [v|]; [|done].
  cbn [fst snd]. case_decide; [|done]. cbn [snd]. by rewrite <- app_assoc.
Qed.

Lemma apply_scalars_changes task data :
  (apply_scalars task data).2 = omap (scalar_change task data) all_attrs.
Proof.
  rewrite apply_scalars_fold, fold_set_attr_changes by apply all_attrs_NoDup.
  done.
Qed.

Lemma extend_events_nil db : extend_events [] db = db.
Proof.
  destruct db as [[] ?]. unfold extend_events; simpl.
  by rewrite app_nil_r, Z.add_0_r.
Qed.

Lemma record_changes_keys str_datetime task user_id changed : ∀ db,
  record_changes str_datetime task user_id changed db =
    extend_events
      (update_events_of str_datetime task user_id (event_seq (view db))
         changed)
      db.
Proof.
  unfold record_changes, update_events_of.
  induction changed as [|[[field old] new] changed IH]; intros db.
  { by rewrite extend_events_nil. }
  cbn [foldl]. rewrite IH. unfold extend_events, add_event; simpl.
  rewrite <- app_assoc. simpl. rewrite Z.add_0_r.
  set (tail := imap _ changed).
  assert (imap
            ((λ i c,
               update_event str_datetime task user_id
                 (event_seq (view db) + Z.of_nat i) c) ∘ S) changed = tail)
    as ->.
  { apply imap_ext. intros i c _. simpl. f_equal. lia. }
  f_equal. f_equal. lia.
Qed.

(** The task and the session [_apply_task_updates] returns. *)
Lemma apply_task_updates_eq str_datetime task data db user_id :
  ∃ task' new,
    _apply_task_updates str_datetime task data db user_id =
      (task',
       extend_events
         (update_events_of str_datetime task' user_id (event_seq (view db))
            (changes_of task data))
         (extend_tags new db)) ∧
    Task.id task' = Task.id task ∧
    Task.created_by_id task' = Task.created_by_id task ∧
    (TaskBase.tag_names data = None → new = []).
Proof.
  unfold _apply_task_updates.
  destruct (compute_changes_spec task data db) as (tgs & new & -> & Htgs).
  rewrite record_changes_keys, apply_scalars_changes.
  eexists _, new. split_and!; [reflexivity| | |].
  - destruct (apply_scalars_frame task data) as (Hid & _).
    rewrite <- Hid. by destruct (apply_scalars task data).1.
  - destruct (apply_scalars_frame task data) as (_ & Hcr & _).
    rewrite <- Hcr. by destruct (apply_scalars task data).1.
  - intros Hnone. rewrite Hnone in Htgs. by destruct Htgs.
Qed.


(** X2: a payload that supplies no relation and whose values, where it has
    any, are the ones the task already holds (the empty payload among
    them) changes nothing: [_apply_task_updates] returns the task and the
    session as they are, with no event recorded. *)
Theorem apply_task_updates_of_current_values
    str_datetime task data db user_id :
  (∀ field v, data_attr data field = Some v → getattr task field = Some v) →
  TaskBase.tag_names data = None →
  TaskBase.collaborator_ids data = None →
  _apply_task_updates str_datetime task data db user_id = (task, db).
Proof.
  intros Hcur Htags Hco. unfold _apply_task_updates.
  rewrite (compute_changes_found _ _ _ (Task.tags task)) by by rewrite Htags.
  rewrite (apply_scalars_fixed _ _ Hcur). unfold relation_changes.
  unfold collaborators_after. rewrite Htags, Hco. cbn.
  by rewrite set_tags_id, set_collaborators_id.
Qed.

Lemma apply_task_updates_of_current_values_witness :
  (∀ field v,
     data_attr no_patch field = Some v →
     getattr ship_release field = Some v) ∧
  _apply_task_updates epoch_str ship_release no_patch (open_session office)
    1 = (ship_release, open_session office).
Proof.
  assert (∀ field v,
    data_attr no_patch field = Some v →
    getattr ship_release field = Some v) as Hcur.
  { by intros []. }
  split; [exact Hcur|].
  by apply apply_task_updates_of_current_values.
Defined.

(** ** Consistency is kept *)

(** Projections of a session built by a primitive. *)
Ltac db_simpl :=
  cbn [fst snd view commits users tasks tags task_dependencies task_events
       task_seq tag_seq dependency_seq event_seq] in *.

Lemma NoDup_snoc {A} (l : list A) (x : A) :
  NoDup l → x ∉ l → NoDup (l ++ [x]).
Proof.
  intros Hnd Hx. apply NoDup_app. split_and!; [done| |apply NoDup_singleton].
  intros y Hy ->%list_elem_of_singleton. done.
Qed.

Lemma fresh_key_not_in {A} (key : A → Z) (l : list A) (next : Z) :
  (∀ x, x ∈ l → key x < next) → next ∉ key <$> l.
Proof.
  intros Hlt (x & Hx & Hin)%list_elem_of_fmap.
  specialize (Hlt x Hin). lia.
Qed.

Lemma consistent_add_tag name db :
  consistent (view db) →
  query_tag db name = None →
  consistent (view (add_tag name db).2).
Proof.
  intros [Hkeyed (Ht & Hg & Hd & He & Hng & Hnd & Hne) Hnames Hpairs Hself Href]
    Hnone.
  split; try done; unfold add_tag; db_simpl.
  - unfold keys_fresh; db_simpl. split_and!; try done.
    + intros tag [Hin| ->%list_elem_of_singleton]%elem_of_app; db_simpl.
      * specialize (Hg tag Hin). lia.
      * simpl. lia.
    + rewrite fmap_app. apply NoDup_snoc; [done|].
      by apply fresh_key_not_in.
  - unfold tag_names_unique in *; db_simpl. rewrite fmap_app.
    apply NoDup_snoc; [done|].
    intros (tag & Hname & Hin)%list_elem_of_fmap.
    by destruct (proj1 (query_tag_None db name) Hnone tag Hin).
Qed.

Lemma resolve_tags_consistent names : ∀ acc db,
  consistent (view db) →
  consistent (view (resolve_tags names acc db).2).
Proof.
  induction names as [|name rest IH]; intros acc db Hc; cbn [resolve_tags].
  { done. }
  destruct (query_tag db name) as [tag|] eqn:Hq; [by apply IH|].
  pose proof (consistent_add_tag name db Hc Hq) as Hc'.
  destruct (add_tag name db) as [tag db1]. by apply IH.
Qed.

Lemma consistent_add_event task_id user_id event_type field old new db :
  consistent (view db) →
  is_Some (tasks (view db) !! task_id) →
  consistent
    (view (add_event task_id user_id event_type field old new db)).
Proof.
  intros [Hkeyed (Ht & Hg & Hd & He & Hng & Hnd & Hne) Hnames Hpairs Hself
            [Hre Hrd]] Htask.
  split; try done; unfold add_event; db_simpl.
  - unfold keys_fresh; db_simpl. split_and!; try done.
    + intros e [Hin| ->%list_elem_of_singleton]%elem_of_app; db_simpl.
      * specialize (He e Hin). lia.
      * simpl. lia.
    + rewrite fmap_app. apply NoDup_snoc; [done|].
      by apply fresh_key_not_in.
  - unfold references_resolve; db_simpl. split; [|done].
    intros e [Hin| ->%list_elem_of_singleton]%elem_of_app; [by apply Hre|].
    done.
Qed.

Lemma record_changes_consistent str_datetime task user_id changed : ∀ db,
  consistent (view db) →
  is_Some (tasks (view db) !! Task.id task) →
  consistent (view (record_changes str_datetime task user_id changed db)).
Proof.
  unfold record_changes.
  induction changed as [|[[field old] new] changed IH]; intros db Hc Htask.
  { done. }
  cbn [foldl]. apply IH; [by apply consistent_add_event|done].
Qed.

Lemma apply_task_updates_consistent str_datetime task data db user_id :
  consistent (view db) →
  is_Some (tasks (view db) !! Task.id task) →
  consistent (view (_apply_task_updates str_datetime task data db user_id).2).
Proof.
  intros Hc Htask. unfold _apply_task_updates. rewrite compute_changes_eq.
  destruct (apply_scalars_frame task data) as (Hid & _).
  assert (∀ tgs co,
    Task.id (set_collaborators (set_tags (apply_scalars task data).1 tgs) co) =
      Task.id task) as Hid'.
  { intros tgs co. rewrite <- Hid. by destruct (apply_scalars task data).1. }
  destruct (TaskBase.tag_names data) as [tag_names|].
  - pose proof (resolve_tags_consistent tag_names [] db Hc) as Hc'.
    destruct (resolve_tags_extend tag_names [] db) as (tgs & new & Hres & _).
    rewrite Hres in *. cbn [fst snd] in *.
    apply record_changes_consistent; [done|]. by rewrite Hid'.
  - cbn [fst snd]. apply record_changes_consistent; [done|]. by rewrite Hid'.
Qed.

Lemma consistent_put_task key task db :
  consistent (view db) →
  Task.id task = key →
  is_Some (tasks (view db) !! key) →
  consistent (view (put_task key task db)).
Proof.
  intros [Hkeyed (Ht & Hg & Hd & He & Hng & Hnd & Hne) Hnames Hpairs Hself
            [Hre Hrd]] Hid Hkey.
  split; try done; unfold put_task; db_simpl.
  - unfold keyed; db_simpl.
    intros k t [[<- <-]|[_ Hk]]%lookup_insert_Some; [done|by apply Hkeyed].
  - unfold keys_fresh; db_simpl. split_and!; try done. intros k Hk. apply Ht.
    apply lookup_insert_is_Some in Hk as [<-|[_ Hk]]; done.
  - unfold references_resolve; db_simpl. split.
    + intros e Hin. apply lookup_insert_is_Some'. right. by apply Hre.
    + intros dep Hin. destruct (Hrd dep Hin).
      split; apply lookup_insert_is_Some'; by right.
Qed.

Lemma consistent_add_task new_task db :
  consistent (view db) →
  (∀ key, Task.id (new_task key) = key) →
  consistent (view (add_task new_task db).2).
Proof.
  intros [Hkeyed (Ht & Hg & Hd & He & Hng & Hnd & Hne) Hnames Hpairs Hself
            [Hre Hrd]] Hid.
  split; try done; unfold add_task; db_simpl.
  - unfold keyed; db_simpl.
    intros k t [[<- <-]|[_ Hk]]%lookup_insert_Some; [done|by apply Hkeyed].
  - unfold keys_fresh; db_simpl. split_and!; try done. intros k Hk.
    apply lookup_insert_is_Some in Hk as [<-|[_ Hk]]; [lia|].
    specialize (Ht k Hk). lia.
  - unfold references_resolve; db_simpl. split.
    + intros e Hin. apply lookup_insert_is_Some'. right. by apply Hre.
    + intros dep Hin. destruct (Hrd dep Hin).
      split; apply lookup_insert_is_Some'; by right.
Qed.

Lemma dependency_rows_nil_not_in d task_id depends_on_id :
  dependency_rows d task_id depends_on_id = [] →
  (task_id, depends_on_id) ∉ pair_of <$> task_dependencies d.
Proof.
  intros Hnil (dep & Hpair & Hin)%list_elem_of_fmap.
  assert (dep ∈ dependency_rows d task_id depends_on_id) as Hrow.
  { apply list_elem_of_filter. split; [|done].
    unfold pair_of in Hpair. by simplify_eq. }
  rewrite Hnil in Hrow. by apply elem_of_nil in Hrow.
Qed.

Lemma consistent_add_dependency_row task_id depends_on_id db :
  consistent (view db) →
  task_id ≠ depends_on_id →
  is_Some (tasks (view db) !! task_id) →
  is_Some (tasks (view db) !! depends_on_id) →
  dependency_rows (view db) task_id depends_on_id = [] →
  consistent (view (add_dependency_row task_id depends_on_id db)).
Proof.
  intros [Hkeyed (Ht & Hg & Hd & He & Hng & Hnd & Hne) Hnames Hpairs Hself
            [Hre Hrd]] Hneq Ha Hb Hnil.
  split; try done; unfold add_dependency_row; db_simpl.
  - unfold keys_fresh; db_simpl. split_and!; try done.
    + intros dep [Hin| ->%list_elem_of_singleton]%elem_of_app; db_simpl.
      * specialize (Hd dep Hin). lia.
      * simpl. lia.
    + rewrite fmap_app. apply NoDup_snoc; [done|].
      by apply fresh_key_not_in.
  - unfold pairs_unique in *; db_simpl. rewrite fmap_app.
    apply NoDup_snoc; [done|]. by apply dependency_rows_nil_not_in.
  - unfold no_self_dependency; db_simpl.
    intros dep [Hin| ->%list_elem_of_singleton]%elem_of_app;
      [by apply Hself|done].
  - unfold references_resolve; db_simpl. split; [done|].
    intros dep [Hin| ->%list_elem_of_singleton]%elem_of_app;
      [by apply Hrd|done].
Qed.

Lemma keeps_consistency_refl db :
  consistent (view db) → keeps_consistency db db.
Proof. intros Hc. split; [done|]. intros d Hd. by left. Qed.

Lemma keeps_consistency_commits db db' news :
  consistent (view db') →
  commits db' = commits db ++ news →
  Forall consistent news →
  keeps_consistency db db'.
Proof.
  intros Hc Hcommits Hnews. split; [done|]. intros d Hd.
  rewrite Hcommits in Hd. apply elem_of_app in Hd as [Hd|Hd]; [by left|].
  right. by eapply Forall_forall in Hnews.
Qed.

Lemma resolve_tags_commits names : ∀ acc db,
  commits (resolve_tags names acc db).2 = commits db.
Proof.
  intros acc db.
  by destruct (resolve_tags_extend names acc db) as (tgs & new & -> & _).
Qed.

Lemma apply_task_updates_commits str_datetime task data db user_id :
  commits (_apply_task_updates str_datetime task data db user_id).2 =
    commits db.
Proof.
  by destruct (apply_task_updates_eq str_datetime task data db user_id)
    as (task' & new & -> & _).
Qed.

Lemma apply_task_updates_id str_datetime task data db user_id :
  Task.id (_apply_task_updates str_datetime task data db user_id).1 =
    Task.id task.
Proof.
  by destruct (apply_task_updates_eq str_datetime task data db user_id)
    as (task' & new & -> & ? & _).
Qed.

(** X3: [create_task] keeps the database consistent: from a consistent
    view it leaves a consistent view, and both states it commits are
    consistent, so neither commit meets a duplicate key, a duplicate tag
    name or a dangling reference. *)
Theorem create_task_keeps_consistency task_in db current_user :
  consistent (view db) →
  keeps_consistency db (create_task task_in db current_user).1.
Proof.
  intros Hc. unfold create_task.
  set (found :=
    match TaskCreate.tag_names task_in with
    | Some (name :: rest) => resolve_tags (name :: rest) [] db
    | _ => ([], db)
    end).
  assert (consistent (view found.2) ∧ commits found.2 = commits db)
    as [Hc0 Hcommits0].
  { unfold found. destruct (TaskCreate.tag_names task_in) as [[|name rest]|];
      try done.
    split; [by apply resolve_tags_consistent|apply resolve_tags_commits]. }
  destruct found as [tgs db0]. cbn [fst snd] in *.
  set (new_task := λ id : Z, Task.mk id _ _ _ _ _ _ _ _ tgs _).
  pose proof (consistent_add_task new_task db0 Hc0 (λ _, eq_refl)) as Hc1.
  assert (commits (add_task new_task db0).2 = commits db) as Hcommits1.
  { done. }
  assert (is_Some
            (tasks (view (add_task new_task db0).2)
               !! Task.id (add_task new_task db0).1)) as Htask.
  { unfold add_task; db_simpl. simpl. rewrite lookup_insert_eq. by eexists. }
  destruct (add_task new_task db0) as [task db1]. cbn [fst snd] in *.
  assert (consistent
            (view (add_event (Task.id task) (Some (User.id current_user))
                     "create" None None None (db_commit db1)))) as Hc2.
  { by apply consistent_add_event. }
  cbn [fst].
  apply (keeps_consistency_commits _ _
           [view db1;
            view (add_event (Task.id task) (Some (User.id current_user))
                    "create" None None None (db_commit db1))]);
    [exact Hc2| |by repeat (apply Forall_cons; split; [done|])].
  unfold db_commit, add_event; db_simpl. rewrite Hcommits1.
  by rewrite <- app_assoc.
Qed.

(** X4: [update_task] keeps the database consistent, whatever it answers:
    the view it leaves and the state it commits on success are
    consistent. *)
Theorem update_task_keeps_consistency
    str_datetime task_id task_in db current_user :
  consistent (view db) →
  keeps_consistency db
    (update_task str_datetime task_id task_in db current_user).1.
Proof.
  intros Hc. unfold update_task.
  destruct (query_task db task_id) as [task|] eqn:Hq;
    [|by apply keeps_consistency_refl].
  destruct (update_denied current_user task);
    [by apply keeps_consistency_refl|].
  assert (Task.id task = task_id) as Hid by by apply Hc.
  pose proof (apply_task_updates_consistent str_datetime task task_in db
                (User.id current_user) Hc) as Hc1.
  pose proof (apply_task_updates_tasks str_datetime task task_in db
                (User.id current_user)) as Htasks.
  pose proof (apply_task_updates_commits str_datetime task task_in db
                (User.id current_user)) as Hcommits.
  pose proof (apply_task_updates_id str_datetime task task_in db
                (User.id current_user)) as Hid1.
  destruct (_apply_task_updates _ _ _ _ _) as [task' db1].
  cbn [fst snd] in *.
  assert (consistent (view (put_task task_id task' db1))) as Hc2.
  { apply consistent_put_task.
    - apply Hc1. rewrite Hid. unfold query_task in Hq. by rewrite Hq.
    - congruence.
    - rewrite Htasks. unfold query_task in Hq. by rewrite Hq. }
  apply (keeps_consistency_commits _ _ [view (put_task task_id task' db1)]);
    [exact Hc2| |by repeat (apply Forall_cons; split; [done|])].
  unfold db_commit, put_task; db_simpl. by rewrite Hcommits.
Qed.

(** X5: [add_dependency] keeps the database consistent, whatever it
    answers: it adds no second row for a pair, no row of a task on itself
    and no row or event for a task that does not exist, and both states it
    commits on success are consistent. *)
Theorem add_dependency_keeps_consistency
    task_id depends_on_id db current_user :
  consistent (view db) →
  keeps_consistency db
    (add_dependency task_id depends_on_id db current_user).1.
Proof.
  intros Hc. unfold add_dependency.
  destruct (decide (task_id = depends_on_id)) as [|Hne];
    [by apply keeps_consistency_refl|].
  destruct (query_task db task_id) as [task|] eqn:Ha;
    [|by apply keeps_consistency_refl].
  destruct (query_task db depends_on_id) as [depends_on|] eqn:Hb;
    [|by apply keeps_consistency_refl].
  rewrite query_dependency_rows.
  destruct (dependency_rows (view db) task_id depends_on_id) eqn:Hrows;
    [|by apply keeps_consistency_refl].
  cbn [head fst].
  assert (consistent (view (add_dependency_row task_id depends_on_id db)))
    as Hc1.
  { unfold query_task in *.
    apply consistent_add_dependency_row; try done; by eexists. }
  assert (consistent
            (view
               (add_event task_id (Some (User.id current_user))
                  "add_dependency" (Some "depends_on") None
                  (Some (pretty depends_on_id))
                  (db_commit (add_dependency_row task_id depends_on_id db)))))
    as Hc2.
  { apply consistent_add_event; [done|]. unfold query_task in Ha.
    unfold db_commit, add_dependency_row; db_simpl. by rewrite Ha. }
  apply (keeps_consistency_commits _ _
           [view (add_dependency_row task_id depends_on_id db);
            view
              (add_event task_id (Some (User.id current_user))
                 "add_dependency" (Some "depends_on") None
                 (Some (pretty depends_on_id))
                 (db_commit (add_dependency_row task_id depends_on_id db)))]);
    [exact Hc2| |by repeat (apply Forall_cons; split; [done|])].
  unfold db_commit, add_event, add_dependency_row; db_simpl.
  by rewrite <- app_assoc.
Qed.

(** ** More on the batch *)

(** What every applied item keeps true holds after the batch. *)
Lemma bulk_update_spec_invariant (P : Session → Prop)
    str_datetime actor items :
  (∀ db item task,
     item ∈ items →
     P db →
     query_task db (BulkTaskUpdateItem.id item) = Some task →
     may_update actor task →
     let r :=
       _apply_task_updates str_datetime task
         (BulkTaskUpdateItem.to_TaskUpdate item) db (User.id actor) in
     P (put_task (BulkTaskUpdateItem.id item) r.1 r.2)) →
  ∀ db, P db → P (bulk_update_spec str_datetime actor items db).2.
Proof.
  induction items as [|item rest IH]; intros Hstep db HP;
    cbn [bulk_update_spec]; [done|].
  assert (∀ db, P db → P (bulk_update_spec str_datetime actor rest db).2)
    as IH'.
  { apply IH. intros db' item' task' Hin. apply Hstep. by right. }
  destruct (query_task db (BulkTaskUpdateItem.id item)) as [task|] eqn:Hq;
    [|by apply IH'].
  destruct (decide (may_update actor task)) as [Hmay|]; [|by apply IH'].
  specialize (Hstep db item task (list_elem_of_here _ _) HP Hq Hmay).
  destruct (_apply_task_updates _ _ _ _ _) as [task' db1].
  cbn [fst snd] in Hstep. specialize (IH' _ Hstep).
  by destruct (bulk_update_spec _ _ rest _).
Qed.

(** X6: [bulk_update_tasks] keeps the database consistent and commits
    nothing in the middle of a batch: the only state it commits is the
    view it leaves.  Whenever it returns, it has committed exactly once,
    at the end, whatever the batch holds (an empty batch and a batch of
    items that are all passed over included). *)
Theorem bulk_update_tasks_keeps_consistency
    str_datetime items db current_user :
  consistent (view db) →
  let r := bulk_update_tasks str_datetime items db current_user in
  keeps_consistency db r.1 ∧
  (∀ d, d ∈ commits r.1 → d ∈ commits db ∨ d = view r.1) ∧
  ∀ result, r.2 = inr result → commits r.1 = commits db ++ [view r.1].
Proof.
  intros Hc r. unfold r. rewrite bulk_update_tasks_eq. cbn [fst].
  pose proof (bulk_update_spec_invariant
                (λ s, consistent (view s) ∧ commits s = commits db)
                str_datetime current_user items) as Hinv.
  destruct (Hinv) with (db := db) as [Hc' Hcommits]; [|done|].
  - intros s item task _ [Hcs Hcommits] Hq Hmay.
    assert (Task.id task = BulkTaskUpdateItem.id item) as Hid by by apply Hcs.
    pose proof (apply_task_updates_consistent str_datetime task
                  (BulkTaskUpdateItem.to_TaskUpdate item) s
                  (User.id current_user) Hcs) as Hc1.
    pose proof (apply_task_updates_tasks str_datetime task
                  (BulkTaskUpdateItem.to_TaskUpdate item) s
                  (User.id current_user)) as Htasks.
    pose proof (apply_task_updates_commits str_datetime task
                  (BulkTaskUpdateItem.to_TaskUpdate item) s
                  (User.id current_user)) as Hcommits1.
    pose proof (apply_task_updates_id str_datetime task
                  (BulkTaskUpdateItem.to_TaskUpdate item) s
                  (User.id current_user)) as Hid1.
    destruct (_apply_task_updates _ _ _ _ _) as [task' s1].
    cbn [fst snd] in *. unfold query_task in Hq. split.
    + apply consistent_put_task.
      * apply Hc1. rewrite Hid, Hq. by eexists.
      * congruence.
      * rewrite Htasks, Hq. by eexists.
    + unfold put_task; db_simpl. congruence.
  - split.
    + apply (keeps_consistency_commits _ _
               [view (bulk_update_spec str_datetime current_user items db).2]);
        [done| |by repeat (apply Forall_cons; split; [done|])].
      unfold db_commit; db_simpl. by rewrite Hcommits.
    + split.
      * unfold db_commit; db_simpl. rewrite Hcommits.
        intros d [?| ->%list_elem_of_singleton]%elem_of_app; [by left|].
        by right.
      * intros result _. unfold db_commit; db_simpl. by rewrite Hcommits.
Qed.

Lemma office_consistent : consistent office.
Proof.
  split.
  - unfold keyed, office; db_simpl.
    intros k task
      [[<- <-]|[_ [<- <-]%lookup_singleton_Some]]%lookup_insert_Some; done.
  - unfold keys_fresh, office; db_simpl. split_and!.
    + intros k [task Hk].
      apply lookup_insert_Some in Hk
        as [[<- _]|[_ [<- _]%lookup_singleton_Some]]; lia.
    + intros tag ->%list_elem_of_singleton. simpl. lia.
    + by intros dep ?%elem_of_nil.
    + intros e [->|[->|?%elem_of_nil]%elem_of_cons]%elem_of_cons;
        [simpl; lia..|done].
    + apply NoDup_singleton.
    + apply NoDup_nil_2.
    + apply (bool_decide_unpack _). by vm_compute.
  - apply NoDup_singleton.
  - apply NoDup_nil_2.
  - by intros dep ?%elem_of_nil.
  - unfold references_resolve, office; db_simpl. split.
    + intros e [->|[->|?%elem_of_nil]%elem_of_cons]%elem_of_cons;
        [by eexists..|done].
    + by intros dep ?%elem_of_nil.
Qed.

Lemma create_task_keeps_consistency_witness :
  consistent office ∧
  keeps_consistency (open_session office)
    (create_task release_input (open_session office) ann).1.
Proof.
  split; [apply office_consistent|].
  apply create_task_keeps_consistency, office_consistent.
Defined.

Lemma update_task_keeps_consistency_witness :
  consistent office ∧
  keeps_consistency (open_session office)
    (update_task epoch_str 1 invite (open_session office) ann).1.
Proof.
  split; [apply office_consistent|].
  apply update_task_keeps_consistency, office_consistent.
Defined.

Lemma add_dependency_keeps_consistency_witness :
  consistent office ∧
  keeps_consistency (open_session office)
    (add_dependency 1 2 (open_session office) dan).1.
Proof.
  split; [apply office_consistent|].
  apply add_dependency_keeps_consistency, office_consistent.
Defined.

Lemma bulk_update_tasks_keeps_consistency_witness :
  consistent office ∧
  (let r :=
     bulk_update_tasks epoch_str [reassign 1 4; set_status 2 "done"]
       (open_session office) cyd in
   keeps_consistency (open_session office) r.1 ∧
   (∃ result, r.2 = inr result) ∧ commits r.1 = [view r.1]).
Proof.
  split; [apply office_consistent|].
  destruct (bulk_update_tasks_keeps_consistency epoch_str
              [reassign 1 4; set_status 2 "done"] (open_session office) cyd
              office_consistent) as (Hkeeps & _ & Hcommits).
  split; [exact Hkeeps|]. split; [by eexists|].
  by eapply Hcommits.
Defined.

(** ** What an update leaves alone *)

Lemma apply_task_updates_relations_kept str_datetime task data db user_id :
  TaskBase.tag_names data = None →
  TaskBase.collaborator_ids data = None →
  let r := _apply_task_updates str_datetime task data db user_id in
  Task.tags r.1 = Task.tags task ∧
  Task.collaborators r.1 = Task.collaborators task ∧
  tags (view r.2) = tags (view db) ∧
  tag_seq (view r.2) = tag_seq (view db).
Proof.
  intros Htags Hco r. unfold r, _apply_task_updates.
  destruct (compute_changes_spec task data db) as (tgs & new & -> & Htgs).
  rewrite record_changes_keys. rewrite Htags in Htgs.
  destruct Htgs as [-> ->]. cbn [fst snd].
  rewrite tags_set_collaborators, tags_set_tags,
    collaborators_set_collaborators.
  unfold collaborators_after. rewrite Hco.
  unfold extend_events, extend_tags; db_simpl.
  by rewrite app_nil_r, Z.add_0_r.
Qed.

(** X7: a successful [update_task] writes one task and nothing else of the
    tasks: the task keeps its [id] and its creator, every other task, the
    users and the dependencies are as before, and exactly one commit is
    made, of the view the route leaves. *)
Theorem update_task_writes_one_task
    str_datetime task_id task_in db current_user task :
  query_task db task_id = Some task →
  may_update current_user task →
  let r := update_task str_datetime task_id task_in db current_user in
  ∃ task',
    r.2 = inr task' ∧ query_task r.1 task_id = Some task' ∧
    Task.id task' = Task.id task ∧
    Task.created_by_id task' = Task.created_by_id task ∧
    (∀ k, k ≠ task_id → query_task r.1 k = query_task db k) ∧
    users (view r.1) = users (view db) ∧
    task_dependencies (view r.1) = task_dependencies (view db) ∧
    commits r.1 = commits db ++ [view r.1].
Proof.
  intros Hq Hmay r. unfold r. rewrite (update_task_found _ _ _ _ _ _ Hq).
  apply update_denied_false in Hmay as ->. cbn [fst snd].
  destruct (apply_task_updates_eq str_datetime task task_in db
              (User.id current_user)) as (task' & new & -> & Hid & Hcr & _).
  exists task'. cbn [fst snd].
  split_and!; try done.
  - apply query_task_put_task.
  - intros k Hne. unfold query_task, db_commit, put_task; db_simpl.
    by rewrite lookup_insert_ne.
Qed.

Lemma update_task_writes_one_task_witness :
  query_task (open_session office) 1 = Some ship_release ∧
  may_update cyd ship_release ∧
  (let r := update_task epoch_str 1 bogus_status (open_session office) cyd in
   query_task r.1 2 = Some write_notes ∧ commits r.1 = [view r.1]).
Proof.
  assert (may_update cyd ship_release) as Hmay by (by right; right; right).
  split; [reflexivity|]. split; [exact Hmay|].
  destruct (update_task_writes_one_task epoch_str 1 bogus_status
              (open_session office) cyd ship_release eq_refl Hmay)
    as (task' & _ & _ & _ & _ & Hothers & _ & _ & Hcommits).
  split; [|exact Hcommits]. by rewrite Hothers.
Defined.

(** X8: a request that fails leaves no trace.  [update_task],
    [delete_task] and [add_dependency] return the session they were given
    whenever they raise, and they answer 404 exactly when a task they
    look up is missing (for [add_dependency], after the test for a
    dependency on itself), whoever the actor is. *)
Theorem failed_requests_leave_no_trace
    str_datetime delete_rows task_id depends_on_id task_in db current_user :
  let u := update_task str_datetime task_id task_in db current_user in
  let d := delete_task delete_rows task_id db current_user in
  let a := add_dependency task_id depends_on_id db current_user in
  ((∃ e, u.2 = inl e) → u.1 = db) ∧
  ((∃ e, d.2 = inl e) → d.1 = db) ∧
  ((∃ e, a.2 = inl e) → a.1 = db) ∧
  (fails_with NotFound u.2 ↔ query_task db task_id = None) ∧
  (fails_with NotFound d.2 ↔ query_task db task_id = None) ∧
  (fails_with NotFound a.2 ↔
     task_id ≠ depends_on_id ∧
     (query_task db task_id = None ∨ query_task db depends_on_id = None)).
Proof.
  intros u d a. unfold u, d, a, update_task, delete_task, add_dependency,
    NotFound.
  split_and!.
  - destruct (query_task db task_id) as [task|]; [|done].
    destruct (update_denied current_user task); [done|].
    destruct (_apply_task_updates _ _ _ _ _). by intros [e ?].
  - destruct (query_task db task_id) as [task|]; [|done].
    destruct (delete_denied current_user task); [done|].
    destruct (delete_rows (view db) task); [by intros [e ?]|done].
  - destruct (decide (task_id = depends_on_id)); [done|].
    destruct (query_task db task_id); [|done].
    destruct (query_task db depends_on_id); [|done].
    destruct (query_dependency db task_id depends_on_id); by intros [e ?].
  - destruct (query_task db task_id) as [task|]; [|done].
    destruct (update_denied current_user task); [done|].
    by destruct (_apply_task_updates _ _ _ _ _).
  - destruct (query_task db task_id) as [task|]; [|done].
    destruct (delete_denied current_user task); [done|].
    by destruct (delete_rows (view db) task).
  - destruct (decide (task_id = depends_on_id)); [simpl; split; [lia|tauto]|].
    destruct (query_task db task_id); [|simpl; tauto].
    destruct (query_task db depends_on_id); [|simpl; tauto].
    destruct (query_dependency db task_id depends_on_id); simpl;
      (split; [done|intros [_ [?|?]]; done]).
Qed.

(** ** What a batch leaves alone *)

Lemma differ_in_bulk_attributes_refl task :
  differ_in_bulk_attributes task task.
Proof. by repeat split. Qed.

Lemma differ_in_bulk_attributes_trans t1 t2 t3 :
  differ_in_bulk_attributes t1 t2 →
  differ_in_bulk_attributes t2 t3 →
  differ_in_bulk_attributes t1 t3.
Proof.
  unfold differ_in_bulk_attributes.
  intros (? & ? & ? & ? & ? & ? & ? & ?) (? & ? & ? & ? & ? & ? & ? & ?).
  split_and!; congruence.
Qed.

(** One item of a batch, applied to a task. *)
Lemma apply_bulk_item str_datetime task item db user_id :
  let r :=
    _apply_task_updates str_datetime task
      (BulkTaskUpdateItem.to_TaskUpdate item) db user_id in
  differ_in_bulk_attributes task r.1 ∧
  tags (view r.2) = tags (view db) ∧
  tag_seq (view r.2) = tag_seq (view db).
Proof.
  intros r.
  destruct (apply_task_updates_relations_kept str_datetime task
              (BulkTaskUpdateItem.to_TaskUpdate item) db user_id eq_refl
              eq_refl) as (Htags & Hco & Htable & Hseq).
  fold r in Htags, Hco, Htable, Hseq.
  destruct (apply_task_updates_eq str_datetime task
              (BulkTaskUpdateItem.to_TaskUpdate item) db user_id)
    as (task' & new & Heq & Hid & Hcr & _).
  pose proof (λ field,
    apply_task_updates_getattr str_datetime task
      (BulkTaskUpdateItem.to_TaskUpdate item) db user_id field) as Hget.
  fold r in Hget. assert (r.1 = task') as Hr1 by (unfold r; by rewrite Heq).
  split; [|done]. unfold differ_in_bulk_attributes.
  pose proof (Hget attr_title) as Hti.
  pose proof (Hget attr_description) as Hde.
  pose proof (Hget attr_due_date) as Hdu.
  pose proof (Hget attr_parent_id) as Hpa.
  unfold patched in *. simpl in Hti, Hde, Hdu, Hpa.
  split_and!; try done; try congruence.
  - destruct (Task.description r.1), (Task.description task);
      by simplify_eq.
  - destruct (Task.due_date r.1), (Task.due_date task); by simplify_eq.
  - destruct (Task.parent_id r.1), (Task.parent_id task); by simplify_eq.
Qed.

(** X9: [bulk_update_tasks] can change the [status], the [priority] and
    the [assignee_id] of a task and nothing else: every task of the
    database is still there afterwards with the same [id], title,
    description, due date, creator, parent, tags and collaborators, no task
    is added, a task no item names is as it was, and the tags, the users
    and the dependencies are untouched. *)
Theorem bulk_update_tasks_changes_three_attributes
    str_datetime items db current_user :
  let r := bulk_update_tasks str_datetime items db current_user in
  (∀ k,
     option_Forall2 differ_in_bulk_attributes
       (query_task db k) (query_task r.1 k)) ∧
  (∀ k, k ∉ BulkTaskUpdateItem.id <$> items →
        query_task r.1 k = query_task db k) ∧
  tags (view r.1) = tags (view db) ∧
  users (view r.1) = users (view db) ∧
  task_dependencies (view r.1) = task_dependencies (view db).
Proof.
  intros r. unfold r. rewrite bulk_update_tasks_eq. cbn [fst].
  set (P := λ s : Session,
    (∀ k, option_Forall2 differ_in_bulk_attributes
            (query_task db k) (query_task s k)) ∧
    (∀ k, k ∉ BulkTaskUpdateItem.id <$> items →
          query_task s k = query_task db k) ∧
    tags (view s) = tags (view db) ∧
    users (view s) = users (view db) ∧
    task_dependencies (view s) = task_dependencies (view db)).
  enough (P (bulk_update_spec str_datetime current_user items db).2)
    as Hfinal by exact Hfinal.
  apply bulk_update_spec_invariant; unfold P.
  - intros s item task Hitem (Hall & Hout & Htags & Husers & Hdeps) Hq Hmay.
    destruct (apply_bulk_item str_datetime task item s (User.id current_user))
      as (Hdiff & Htags1 & _).
    destruct (apply_task_updates_eq str_datetime task
                (BulkTaskUpdateItem.to_TaskUpdate item) s
                (User.id current_user)) as (task' & new & Heq & _).
    rewrite Heq in *. cbn [fst snd] in *.
    split_and!.
    + intros k. unfold query_task, put_task; db_simpl.
      destruct (decide (BulkTaskUpdateItem.id item = k)) as [<-|Hne].
      * rewrite lookup_insert_eq.
        pose proof (Hall (BulkTaskUpdateItem.id item)) as Hk.
        rewrite Hq in Hk. inversion Hk as [t0 ? Hd0 Ht0|].
        unfold query_task in Ht0. rewrite <- Ht0.
        constructor. by eapply differ_in_bulk_attributes_trans.
      * rewrite lookup_insert_ne by done. apply Hall.
    + intros k Hk. unfold query_task, put_task; db_simpl.
      rewrite lookup_insert_ne; [by apply Hout|].
      intros <-. apply Hk. by apply list_elem_of_fmap_2.
    + etrans; [exact Htags1|done].
    + by rewrite <- Husers.
    + by rewrite <- Hdeps.
  - split_and!; try done. intros k.
    destruct (query_task db k); constructor.
    apply differ_in_bulk_attributes_refl.
Qed.

Lemma bulk_item_changes task item c :
  c ∈ changes_of task (BulkTaskUpdateItem.to_TaskUpdate item) →
  c.1.1 ∈ ["status"; "priority"; "assignee_id"].
Proof.
  unfold changes_of, relation_changes. cbn [TaskBase.tag_names
    TaskBase.collaborator_ids BulkTaskUpdateItem.to_TaskUpdate].
  rewrite app_nil_r.
  intros (field & Hfield & Hc)%list_elem_of_omap.
  unfold scalar_change in Hc.
  destruct field; simpl in Hc; try done;
    destruct (_ <$> _); try done; case_decide; simplify_eq; simpl.
  - by left.
  - by right; left.
  - by right; right; left.
Qed.

(** X10: with task rows stored under their ids, every audit event
    [bulk_update_tasks] adds is an [update] event by the acting user for
    the field [status], [priority] or [assignee_id] of a task that an item
    of the batch names; the events that were there are kept, in place. *)
Theorem bulk_update_tasks_audit str_datetime items db current_user :
  keyed (view db) →
  let r := bulk_update_tasks str_datetime items db current_user in
  ∃ new,
    task_events (view r.1) = task_events (view db) ++ new ∧
    Forall (bulk_event current_user items) new.
Proof.
  intros Hkeyed r. unfold r. rewrite bulk_update_tasks_eq. cbn [fst].
  set (P := λ s : Session,
    keyed (view s) ∧
    ∃ new,
      task_events (view s) = task_events (view db) ++ new ∧
      Forall (bulk_event current_user items) new).
  enough (P (bulk_update_spec str_datetime current_user items db).2)
    as [_ Hfinal] by exact Hfinal.
  apply bulk_update_spec_invariant; unfold P.
  - intros s item task Hitem (Hk & new & Hnew & Hall) Hq Hmay.
    assert (Task.id task = BulkTaskUpdateItem.id item) as Hid
      by by apply Hk.
    destruct (apply_task_updates_eq str_datetime task
                (BulkTaskUpdateItem.to_TaskUpdate item) s
                (User.id current_user)) as (task' & new' & -> & Hid' & _).
    cbn [fst snd]. split.
    + unfold keyed, put_task; db_simpl.
      intros k t [[<- <-]|[_ Hkt]]%lookup_insert_Some; [congruence|].
      by apply Hk.
    + eexists. split.
      * unfold put_task, extend_events, extend_tags; db_simpl.
        rewrite Hnew, <- app_assoc. reflexivity.
      * apply Forall_app. split; [done|]. apply Forall_forall.
        intros e (i & c & -> & Hc)%elem_of_lookup_imap.
        apply list_elem_of_lookup_2, bulk_item_changes in Hc.
        unfold bulk_event, update_event; simpl. split_and!; [done..| |].
        -- apply elem_of_cons in Hc as [->|Hc]; [by left|].
           apply elem_of_cons in Hc as [->|Hc]; [by right; left|].
           apply elem_of_cons in Hc as [->|Hc]; [by right; right; left|].
           by apply elem_of_nil in Hc.
        -- rewrite Hid', Hid. by apply list_elem_of_fmap_2.
  - split; [done|]. exists []. by rewrite app_nil_r.
Qed.

Lemma bulk_update_tasks_audit_witness :
  keyed office ∧
  ∃ new,
    task_events
      (view
         (bulk_update_tasks epoch_str [reassign 1 4; set_status 2 "done"]
            (open_session office) cyd).1) =
      task_events office ++ new ∧
    Forall (bulk_event cyd [reassign 1 4; set_status 2 "done"]) new.
Proof.
  split; [apply office_consistent|].
  apply (bulk_update_tasks_audit epoch_str
           [reassign 1 4; set_status 2 "done"] (open_session office) cyd),
    office_consistent.
Defined.

(** ** Dependencies, written and read *)

Lemma list_dependencies_rows task_id depends_on_id db current_user :
  depends_on_id ∈ list_dependencies task_id db current_user ↔
  dependency_rows (view db) task_id depends_on_id ≠ [].
Proof.
  unfold list_dependencies, dependency_rows. rewrite list_elem_of_fmap. split.
  - intros (dep & -> & [Ht Hin]%list_elem_of_filter) Hnil.
    assert (dep ∈ filter
              (λ d, TaskDependency.task_id d = task_id ∧
                    TaskDependency.depends_on_id d =
                      TaskDependency.depends_on_id dep)
              (task_dependencies (view db))) as Hrow
      by by apply list_elem_of_filter.
    rewrite Hnil in Hrow. by apply elem_of_nil in Hrow.
  - intros Hne.
    destruct (filter _ (task_dependencies (view db))) as [|dep rows] eqn:Hrows;
      [done|].
    assert (dep ∈ dep :: rows) as Hin by left. rewrite <- Hrows in Hin.
    apply list_elem_of_filter in Hin as [[Ht Hd] Hin].
    exists dep. split; [done|]. by apply list_elem_of_filter.
Qed.

(** X11: [add_dependency] changes the session exactly when it answers
    "Dependency added", which it does exactly when the two ids differ, both
    tasks exist and the pair has no row; no other row is looked at, so a
    dependency that closes a cycle is accepted like any other.  It then
    adds one row for the pair and one [add_dependency] event for the task,
    and makes two commits, the first of which holds the row without the
    event. *)
Theorem add_dependency_adds_exactly_when_new
    task_id depends_on_id db current_user :
  let r := add_dependency task_id depends_on_id db current_user in
  let added :=
    task_id ≠ depends_on_id ∧ is_Some (query_task db task_id) ∧
    is_Some (query_task db depends_on_id) ∧
    dependency_rows (view db) task_id depends_on_id = [] in
  (r.2 = inr "Dependency added" ↔ added) ∧
  (¬ added → r.1 = db) ∧
  (added →
   ∃ d1,
     commits r.1 = commits db ++ [d1; view r.1] ∧
     task_dependencies (view r.1) =
       task_dependencies (view db) ++
         [TaskDependency.mk (dependency_seq (view db)) task_id
            depends_on_id] ∧
     task_dependencies d1 = task_dependencies (view r.1) ∧
     task_events d1 = task_events (view db) ∧
     task_events (view r.1) =
       task_events (view db) ++
         [TaskEvent.mk (event_seq (view db)) task_id
            (Some (User.id current_user)) "add_dependency"
            (Some "depends_on") None (Some (pretty depends_on_id))] ∧
     tasks (view r.1) = tasks (view db)).
Proof.
  intros r added. unfold r, added, add_dependency. clear r added.
  destruct (decide (task_id = depends_on_id)) as [Heq|Hne].
  { split_and!; [|done|tauto]. split; [done|tauto]. }
  destruct (query_task db task_id) as [task|] eqn:Ha.
  2: { split_and!; [|done|by intros (_ & [? ?] & _)].
       split; [done|by intros (_ & [? ?] & _)]. }
  destruct (query_task db depends_on_id) as [depends_on|] eqn:Hb.
  2: { split_and!; [|done|by intros (_ & _ & [? ?] & _)].
       split; [done|by intros (_ & _ & [? ?] & _)]. }
  rewrite query_dependency_rows.
  destruct (dependency_rows (view db) task_id depends_on_id) as [|dep rows].
  - cbn [head fst snd]. split_and!.
    + split; [|done]. intros _. split_and!; [done|by eexists..|done].
    + intros Hnot. destruct Hnot. split_and!; [done|by eexists..|done].
    + intros _. exists (view (add_dependency_row task_id depends_on_id db)).
      split_and!; try reflexivity.
      unfold db_commit, add_event, add_dependency_row; db_simpl.
      by rewrite <- app_assoc.
  - cbn [head fst snd]. split_and!; [|done|by intros (_ & _ & _ & ?)].
    split; [done|by intros (_ & _ & _ & ?)].
Qed.

(** X12: [add_dependency] takes a dependency in both directions: after
    [add_dependency(a, b)] was added for two distinct existing tasks with
    no dependency between them, [add_dependency(b, a)] is added as well,
    and [list_dependencies] lists each task under the other. *)
Theorem add_dependency_accepts_both_directions a b db current_user :
  a ≠ b →
  is_Some (query_task db a) →
  is_Some (query_task db b) →
  dependency_rows (view db) a b = [] →
  dependency_rows (view db) b a = [] →
  let r1 := add_dependency a b db current_user in
  let r2 := add_dependency b a r1.1 current_user in
  r1.2 = inr "Dependency added" ∧ r2.2 = inr "Dependency added" ∧
  b ∈ list_dependencies a r2.1 current_user ∧
  a ∈ list_dependencies b r2.1 current_user.
Proof.
  intros Hne Ha Hb Hab Hba r1 r2. unfold r2, r1. clear r1 r2.
  rewrite (add_dependency_found a b db) by done. rewrite Hab. cbn [fst snd].
  destruct (dependency_added a b db (Some (User.id current_user)))
    as (Hrows1 & _ & Htasks1).
  set (db1 := db_commit _) in *.
  assert (dependency_rows (view db1) b a = []) as Hba1.
  { unfold db1, dependency_rows, db_commit, add_event, add_dependency_row;
      db_simpl.
    unfold dependency_rows in Hba. rewrite filter_app, Hba.
    rewrite filter_cons_False; [done|]. simpl. by intros [? ?]. }
  rewrite (add_dependency_found b a db1); [|done|..].
  2, 3: unfold query_task in *; by rewrite Htasks1.
  rewrite Hba1. cbn [fst snd].
  destruct (dependency_added b a db1 (Some (User.id current_user)))
    as (Hrows2 & _ & _).
  split_and!; [done..| |].
  - apply list_dependencies_rows.
    unfold dependency_rows in *. unfold db_commit, add_event,
      add_dependency_row; db_simpl.
    rewrite filter_app. intros [Hnil _]%app_eq_nil.
    unfold db_commit, add_event, add_dependency_row in Hrows1; db_simpl.
    rewrite Hrows1 in Hnil. by destruct (filter _ (task_dependencies (view db))).
  - apply list_dependencies_rows. rewrite Hrows2. by intros [? ?]%app_eq_nil.
Qed.

Lemma add_dependency_accepts_both_directions_witness :
  let r1 := add_dependency 1 2 (open_session office) ann in
  let r2 := add_dependency 2 1 r1.1 ann in
  r1.2 = inr "Dependency added" ∧ r2.2 = inr "Dependency added" ∧
  2 ∈ list_dependencies 1 r2.1 ann ∧ 1 ∈ list_dependencies 2 r2.1 ann.
Proof.
  apply (add_dependency_accepts_both_directions 1 2 (open_session office) ann);
    [done|by eexists|by eexists|reflexivity|reflexivity].
Defined.




(** ** Reading back what was written *)

(** X14: [get_task] returns what the write routes left: the task
    [create_task] returned, under the id of that task, and the task a
    successful [update_task] returned, under the id it was updated by; for
    an id with no row it answers 404. *)
Theorem get_task_reads_back
    str_datetime task_in task_id data db current_user reader :
  (let r := create_task task_in db current_user in
   ∃ task, r.2 = inr task ∧ get_task (Task.id task) r.1 reader = inr task) ∧
  (let r := update_task str_datetime task_id data db current_user in
   ∀ task, r.2 = inr task → get_task task_id r.1 reader = inr task) ∧
  (query_task db task_id = None ↔
   fails_with NotFound (get_task task_id db reader)).
Proof.
  split_and!.
  - unfold create_task.
    destruct (match TaskCreate.tag_names task_in with
              | Some (name :: rest) => resolve_tags (name :: rest) [] db
              | _ => ([], db)
              end) as [tgs db0].
    cbn. eexists. split; [reflexivity|].
    unfold get_task, query_task; db_simpl. simpl.
    by rewrite lookup_insert_eq.
  - unfold update_task.
    destruct (query_task db task_id) as [task|]; [|done].
    destruct (update_denied current_user task); [done|].
    destruct (_apply_task_updates _ _ _ _ _) as [task' db1].
    cbn [fst snd]. intros ? [= <-]. unfold get_task.
    by rewrite query_task_put_task.
  - unfold get_task, NotFound. by destruct (query_task db task_id).
Qed.

(** X15: in a database whose task keys lie below the sequence,
    [create_task] takes an id no task has, leaves every task that exists
    as it is, keeps the events and the dependencies that are there, and
    moves the sequence on by one. *)
Theorem create_task_adds_one_task task_in db current_user :
  (∀ k, is_Some (query_task db k) → k < task_seq (view db)) →
  let r := create_task task_in db current_user in
  ∃ task,
    r.2 = inr task ∧ query_task db (Task.id task) = None ∧
    (∀ k, k ≠ Task.id task → query_task r.1 k = query_task db k) ∧
    task_seq (view r.1) = task_seq (view db) + 1 ∧
    task_dependencies (view r.1) = task_dependencies (view db) ∧
    users (view r.1) = users (view db).
Proof.
  intros Hfresh r. unfold r, create_task. clear r.
  assert (∃ tgs new,
    match TaskCreate.tag_names task_in with
    | Some (name :: rest) => resolve_tags (name :: rest) [] db
    | _ => ([], db)
    end = (tgs, extend_tags new db)) as (tgs & new & ->).
  { destruct (TaskCreate.tag_names task_in) as [[|name rest]|].
    - exists [], []. by rewrite extend_tags_nil.
    - destruct (resolve_tags_extend (name :: rest) [] db)
        as (tgs & new & -> & _). by exists tgs, new.
    - exists [], []. by rewrite extend_tags_nil. }
  cbn. eexists. split_and!; try reflexivity.
  - simpl. destruct (query_task db (task_seq (view db))) as [task|] eqn:Hq;
      [|done].
    assert (task_seq (view db) < task_seq (view db)); [|lia].
    apply Hfresh. rewrite Hq. by eexists.
  - intros k Hk. unfold query_task. simpl in *.
    by rewrite lookup_insert_ne.
Qed.

Lemma create_task_adds_one_task_witness :
  (∀ k, is_Some (query_task (open_session office) k) → k < task_seq office) ∧
  (let r := create_task release_input (open_session office) dan in
   ∃ task,
     r.2 = inr task ∧ Task.id task = 3 ∧
     query_task r.1 1 = Some ship_release).
Proof.
  assert (∀ k, is_Some (query_task (open_session office) k) →
               k < task_seq office) as Hfresh.
  { apply office_consistent. }
  split; [exact Hfresh|].
  destruct (create_task_adds_one_task release_input (open_session office) dan
              Hfresh) as (task & Hr & _ & Hothers & _).
  exists task. split; [exact Hr|].
  assert (Task.id task = 3) as Hid.
  { revert Hr. vm_compute. by intros [= <-]. }
  split; [exact Hid|]. rewrite Hothers; [done|]. rewrite Hid. done.
Defined.



(** ** Listing tasks *)

Lemma forallb_snoc {C} (p : C → bool) (conditions : list C) (c : C) :
  forallb p (conditions ++ [c]) = true ↔
  forallb p conditions = true ∧ p c = true.
Proof.
  rewrite forallb_app. simpl. rewrite andb_true_r.
  apply andb_true_iff.
Qed.

Lemma holds_append_if_list {A} (xs : option (list A))
    (make : list A → Task.t → bool) (P : list A → Prop) conditions task :
  (∀ l, make l task = true ↔ P l) →
  forallb (λ c, c task) (append_if_list xs make conditions) = true ↔
  forallb (λ c, c task) conditions = true ∧
  match xs with Some (x :: rest) => P (x :: rest) | _ => True end.
Proof.
  intros Hmake. unfold append_if_list.
  destruct xs as [[|x rest]|]; [tauto| |tauto].
  by rewrite forallb_snoc, Hmake.
Qed.

Lemma holds_append_if_some {A} (x : option A)
    (make : A → Task.t → bool) (P : A → Prop) conditions task :
  (∀ a, make a task = true ↔ P a) →
  forallb (λ c, c task) (append_if_some x make conditions) = true ↔
  forallb (λ c, c task) conditions = true ∧
  match x with Some a => P a | None => True end.
Proof.
  intros Hmake. unfold append_if_some. destruct x as [a|]; [|tauto].
  by rewrite forallb_snoc, Hmake.
Qed.

Lemma sql_in_true `{EqDecision A} (column : option A) (values : list A) :
  sql_in column values = true ↔ ∃ v, column = Some v ∧ v ∈ values.
Proof.
  unfold sql_in. destruct column as [x|].
  - rewrite bool_decide_eq_true. split; [by exists x|].
    by intros (v & [= ->] & Hv).
  - split; [done|]. by intros (v & ? & _).
Qed.

Lemma sql_ge_true column bound :
  sql_ge column bound = true ↔ ∃ v, column = Some v ∧ bound ≤ v.
Proof.
  unfold sql_ge. destruct column as [x|].
  - rewrite bool_decide_eq_true. split; [by exists x|].
    by intros (v & [= ->] & Hv).
  - split; [done|]. by intros (v & ? & _).
Qed.

Lemma sql_le_true column bound :
  sql_le column bound = true ↔ ∃ v, column = Some v ∧ v ≤ bound.
Proof.
  unfold sql_le. destruct column as [x|].
  - rewrite bool_decide_eq_true. split; [by exists x|].
    by intros (v & [= ->] & Hv).
  - split; [done|]. by intros (v & ? & _).
Qed.

Lemma elem_of_filter_if_any (conditions : list (Task.t → bool))
    (q : list Task.t) (task : Task.t) :
  task ∈
    match conditions return list Task.t with
    | [] => q
    | _ :: _ => filter (λ t, forallb (λ c, c t) conditions = true) q
    end ↔
  task ∈ q ∧ forallb (λ c, c task) conditions = true.
Proof.
  destruct conditions as [|c conditions]; [simpl; tauto|].
  by rewrite list_elem_of_filter, (comm and).
Qed.

Lemma elem_of_all_tasks db task :
  task ∈ all_tasks db ↔ ∃ k, query_task db k = Some task.
Proof.
  unfold all_tasks, query_task. rewrite list_elem_of_fmap. split.
  - intros ([k t] & -> & Hin). exists k. by apply elem_of_map_to_list.
  - intros (k & Hk). exists (k, task). split; [done|].
    by apply elem_of_map_to_list.
Qed.

(** X17: [list_tasks] returns exactly the tasks of the table that pass
    every filter the request supplies.  A list filter that is absent or
    empty asks nothing; otherwise the column must hold one of the listed
    values, so a task with no assignee passes no assignee filter.  A bound
    on the due date is passed only by a task that has a due date on the
    right side of it, and the tag filter by a task bearing at least one of
    the named tags. *)
Theorem list_tasks_selects task_created_at db current_user
    status_in priority_in assignee_id_in tag_in
    created_from created_to due_from due_to task :
  task ∈
    list_tasks task_created_at db current_user status_in priority_in
      assignee_id_in tag_in created_from created_to due_from due_to ↔
  (∃ k, query_task db k = Some task) ∧
  passes_in status_in (Task.status task) ∧
  passes_in priority_in (Task.priority task) ∧
  passes_in assignee_id_in (Task.assignee_id task) ∧
  passes_from created_from (Some (task_created_at (Task.id task))) ∧
  passes_to created_to (Some (task_created_at (Task.id task))) ∧
  passes_from due_from (Task.due_date task) ∧
  passes_to due_to (Task.due_date task) ∧
  passes_tag tag_in task.
Proof.
  unfold list_tasks.
  assert (∀ q : list Task.t,
    task ∈
      match tag_in return list Task.t with
      | Some (name :: rest) =>
          filter
            (λ t, Exists (λ tag, Tag.name tag ∈ name :: rest) (Task.tags t)) q
      | _ => q
      end ↔ task ∈ q ∧ passes_tag tag_in task) as Htag.
  { intros q. unfold passes_tag. destruct tag_in as [[|name rest]|];
      [tauto| |tauto].
    rewrite list_elem_of_filter, Exists_exists. tauto. }
  rewrite Htag, elem_of_filter_if_any, elem_of_all_tasks.
  rewrite (holds_append_if_some due_to _
             (λ d, ∃ v, Task.due_date task = Some v ∧ v ≤ d))
    by (intros; apply sql_le_true).
  rewrite (holds_append_if_some due_from _
             (λ d, ∃ v, Task.due_date task = Some v ∧ d ≤ v))
    by (intros; apply sql_ge_true).
  rewrite (holds_append_if_some created_to _
             (λ d, task_created_at (Task.id task) ≤ d))
    by (intros; apply bool_decide_eq_true).
  rewrite (holds_append_if_some created_from _
             (λ d, d ≤ task_created_at (Task.id task)))
    by (intros; apply bool_decide_eq_true).
  rewrite (holds_append_if_list assignee_id_in _
             (λ l, ∃ v, Task.assignee_id task = Some v ∧ v ∈ l))
    by (intros; apply sql_in_true).
  rewrite (holds_append_if_list priority_in _
             (λ l, ∃ v, Task.priority task = Some v ∧ v ∈ l))
    by (intros; apply sql_in_true).
  rewrite (holds_append_if_list status_in _
             (λ l, ∃ v, Task.status task = Some v ∧ v ∈ l))
    by (intros; apply sql_in_true).
  unfold passes_in, passes_from, passes_to. simpl.
  assert (∀ (b : option datetime) (x : datetime) (R : Z → Z → Prop),
    match b with Some d => ∃ v, Some x = Some v ∧ R d v | None => True end ↔
    match b with Some d => R d x | None => True end) as Hsome.
  { intros [d|] x R; [|done]. split; [by intros (v & [= <-] & ?)|].
    intros ?. by exists x. }
  rewrite (Hsome created_from _ (λ d v, d ≤ v)).
  rewrite (Hsome created_to _ (λ d v, v ≤ d)).
  tauto.
Qed.

Lemma list_tasks_sublist task_created_at db current_user
    status_in priority_in assignee_id_in tag_in
    created_from created_to due_from due_to :
  list_tasks task_created_at db current_user status_in priority_in
    assignee_id_in tag_in created_from created_to due_from due_to
  `sublist_of` all_tasks db.
Proof.
  unfold list_tasks.
  generalize (append_if_some due_to (λ d t, sql_le (Task.due_date t) d)
    (append_if_some due_from (λ d t, sql_ge (Task.due_date t) d)
    (append_if_some created_to
       (λ d t, bool_decide (task_created_at (Task.id t) ≤ d))
    (append_if_some created_from
       (λ d t, bool_decide (d ≤ task_created_at (Task.id t)))
    (append_if_list assignee_id_in (λ l t, sql_in (Task.assignee_id t) l)
    (append_if_list priority_in (λ l t, sql_in (Task.priority t) l)
    (append_if_list status_in (λ l t, sql_in (Task.status t) l) []))))))).
  intros conditions.
  assert (match conditions return list Task.t with
          | [] => all_tasks db
          | _ :: _ =>
              filter (λ t, forallb (λ c, c t) conditions = true) (all_tasks db)
          end `sublist_of` all_tasks db) as Hq.
  { destruct conditions; [done|apply sublist_filter]. }
  destruct tag_in as [[|name rest]|]; try done.
  etrans; [apply sublist_filter|done].
Qed.

Lemma all_tasks_NoDup db : keyed (view db) → NoDup (all_tasks db).
Proof.
  intros Hkeyed. unfold all_tasks. apply NoDup_fmap_2_strong.
  - intros [k1 t1] [k2 t2] H1%elem_of_map_to_list H2%elem_of_map_to_list.
    simpl. intros ->. f_equal.
    rewrite <- (Hkeyed _ _ H1), <- (Hkeyed _ _ H2). done.
  - apply NoDup_map_to_list.
Qed.

(** X18: with task rows stored under their ids, [list_tasks] lists no
    task twice, whatever the filters, and every task it lists is the task
    [get_task] returns for its id; with no filter, or with empty filter
    lists only, it lists every task of the table. *)
Theorem list_tasks_agrees_with_get_task task_created_at db current_user
    status_in priority_in assignee_id_in tag_in
    created_from created_to due_from due_to :
  keyed (view db) →
  let l :=
    list_tasks task_created_at db current_user status_in priority_in
      assignee_id_in tag_in created_from created_to due_from due_to in
  NoDup l ∧
  (∀ task, task ∈ l → get_task (Task.id task) db current_user = inr task) ∧
  (∀ k task,
     query_task db k = Some task →
     task ∈
       list_tasks task_created_at db current_user (Some []) None (Some [])
         (Some []) None None None None).
Proof.
  intros Hkeyed l. split_and!.
  - eapply sublist_NoDup; [by apply all_tasks_NoDup|].
    apply list_tasks_sublist.
  - intros task Hin.
    assert (task ∈ all_tasks db) as Hall.
    { eapply elem_of_sublist; [exact Hin|apply list_tasks_sublist]. }
    apply elem_of_all_tasks in Hall as [k Hk].
    unfold get_task. unfold query_task in *.
    by rewrite (Hkeyed _ _ Hk), Hk.
  - intros k task Hk.
    change (list_tasks task_created_at db current_user (Some []) None
              (Some []) (Some []) None None None None)
      with (all_tasks db).
    apply elem_of_all_tasks. by exists k.
Qed.

Lemma list_tasks_agrees_with_get_task_witness :
  keyed office ∧
  (let l :=
     list_tasks (λ _, 0) (open_session office) ann (Some ["todo"]) None
       (Some [3; 4]) (Some ["urgent"]) None None (Some 0) None in
   NoDup l ∧ l = [ship_release] ∧
   get_task 1 (open_session office) ann = inr ship_release).
Proof.
  split; [apply office_consistent|].
  destruct (list_tasks_agrees_with_get_task (λ _, 0) (open_session office) ann
              (Some ["todo"]) None (Some [3; 4]) (Some ["urgent"]) None None
              (Some 0) None) as (Hnd & Hget & _).
  { apply office_consistent. }
  split; [exact Hnd|]. split; [reflexivity|].
  apply (Hget ship_release). by left.
Defined.

(** ** The distribution of tasks over assignees *)

Lemma or_zero_sql_sum values : or_zero (sql_sum values) = total values.
Proof.
  unfold or_zero, sql_sum, total. destruct values as [|v values]; [done|].
  by case_decide.
Qed.

Lemma total_overdue_case now (group : list Task.t) :
  total (overdue_case now <$> group) =
    Z.of_nat (length (filter (is_overdue now) group)).
Proof.
  unfold total. induction group as [|t group IH]; [done|].
  rewrite fmap_cons, filter_cons. cbn [foldr]. rewrite IH.
  destruct (decide (is_overdue now t)) as [Hover|Hnot].
  - assert (overdue_case now t = 1) as ->; [|cbn [length]; lia].
    unfold overdue_case, is_overdue in *.
    destruct (Task.due_date t); [by rewrite decide_True|done].
  - assert (overdue_case now t = 0) as ->; [|lia].
    unfold overdue_case, is_overdue in *.
    destruct (Task.due_date t); [by rewrite decide_False|done].
Qed.

Lemma filter_assigned_rows (l : list Task.t) user_id :
  filter (λ t, Task.assignee_id t = Some user_id)
    (filter (λ t, Task.assignee_id t ≠ None) l) =
  filter (λ t, Task.assignee_id t = Some user_id) l.
Proof.
  rewrite list_filter_filter. apply list_filter_iff.
  intros t. split; [tauto|]. intros H. split; [done|]. by rewrite H.
Qed.

Lemma task_distribution_eq utcnow db current_user :
  task_distribution utcnow db current_user =
    (λ user_id,
      TaskDistribution.mk user_id
        (Z.of_nat (length (assigned_to db user_id)))
        (Z.of_nat
           (length (filter (is_overdue utcnow) (assigned_to db user_id)))))
    <$> remove_dups
          (omap Task.assignee_id
             (filter (λ t, Task.assignee_id t ≠ None) (all_tasks db))).
Proof.
  unfold task_distribution. rewrite <- list_fmap_compose.
  apply list_fmap_ext. intros _ user_id _. simpl.
  rewrite or_zero_sql_sum, total_overdue_case, filter_assigned_rows. done.
Qed.

Lemma elem_of_assignees (l : list Task.t) user_id :
  user_id ∈ omap Task.assignee_id (filter (λ t, Task.assignee_id t ≠ None) l)
  ↔ ∃ task, task ∈ l ∧ Task.assignee_id task = Some user_id.
Proof.
  rewrite list_elem_of_omap. split.
  - intros (t & [_ Hin]%list_elem_of_filter & Ht). eauto.
  - intros (t & Hin & Ht). exists t. split; [|done].
    apply list_elem_of_filter. split; [|done]. by rewrite Ht.
Qed.

Lemma total_zero {A} (keys : list A) : total ((λ _, 0) <$> keys) = 0.
Proof.
  unfold total. induction keys as [|k keys IH]; [done|].
  rewrite fmap_cons. cbn [foldr]. by rewrite IH.
Qed.

Lemma total_add {A} (f g : A → Z) (keys : list A) :
  total ((λ k, f k + g k) <$> keys) = total (f <$> keys) + total (g <$> keys).
Proof.
  unfold total. induction keys as [|k keys IH]; [done|].
  rewrite !fmap_cons. cbn [foldr]. rewrite IH. lia.
Qed.

Lemma total_indicator (keys : list Z) (key : Z) :
  NoDup keys → key ∈ keys →
  total ((λ k, if decide (Some key = Some k) then 1 else 0) <$> keys) = 1.
Proof.
  induction 1 as [|k keys Hnotin Hnd IH]; intros Hin.
  { by apply elem_of_nil in Hin. }
  unfold total in *. rewrite fmap_cons. cbn [foldr].
  apply elem_of_cons in Hin as [->|Hin].
  - rewrite decide_True by done.
    assert (foldr Z.add 0
              ((λ k0, if decide (Some k = Some k0) then 1 else 0) <$> keys) =
            0) as ->; [|done].
    clear IH Hnd. induction keys as [|k' keys IH]; [done|].
    apply not_elem_of_cons in Hnotin as [Hne Hnotin].
    rewrite fmap_cons. cbn [foldr]. rewrite IH by done.
    rewrite decide_False; [done|]. by intros [= ->].
  - rewrite decide_False; [by rewrite IH|].
    intros [= ->]. done.
Qed.

(** Every row falls in the group of exactly one key. *)
Lemma total_of_groups (keys : list Z) (rows : list Task.t) :
  NoDup keys →
  (∀ t, t ∈ rows → ∃ k, k ∈ keys ∧ Task.assignee_id t = Some k) →
  total
    ((λ k, Z.of_nat (length (filter (λ t, Task.assignee_id t = Some k) rows)))
       <$> keys) =
  Z.of_nat (length rows).
Proof.
  intros Hnd. induction rows as [|t rows IH]; intros Hrows.
  { apply total_zero. }
  destruct (Hrows t) as (key & Hkey & Ht); [by left|].
  assert (total
            ((λ k,
               (if decide (Some key = Some k) then 1 else 0) +
               Z.of_nat
                 (length (filter (λ t, Task.assignee_id t = Some k) rows)))
               <$> keys) = 1 + Z.of_nat (length rows)) as Hsum.
  { rewrite total_add, total_indicator, IH; [done| |done..].
    intros t' Hin. apply Hrows. by right. }
  cbn [length]. rewrite Nat2Z.inj_succ, <- Z.add_1_l.
  rewrite <- Hsum. f_equal. apply list_fmap_ext. intros _ k _.
  rewrite filter_cons, Ht.
  destruct (decide (Some key = Some k)); cbn [length]; lia.
Qed.

(** X19: [task_distribution] has one row for each user who is the
    assignee of at least one task, and no other row; the row counts the
    tasks assigned to the user and, among them, those with a due date
    before now, so that 1 ≤ total and 0 ≤ overdue ≤ total; the totals add
    up to the number of tasks that have an assignee, tasks without one
    being counted nowhere. *)
Theorem task_distribution_counts utcnow db current_user :
  let rows := task_distribution utcnow db current_user in
  NoDup (TaskDistribution.user_id <$> rows) ∧
  (∀ user_id,
     user_id ∈ TaskDistribution.user_id <$> rows ↔
     ∃ task, task ∈ all_tasks db ∧ Task.assignee_id task = Some user_id) ∧
  (∀ row, row ∈ rows →
     TaskDistribution.total_tasks row =
       Z.of_nat (length (assigned_to db (TaskDistribution.user_id row))) ∧
     TaskDistribution.overdue_tasks row =
       Z.of_nat
         (length
            (filter (is_overdue utcnow)
               (assigned_to db (TaskDistribution.user_id row)))) ∧
     1 ≤ TaskDistribution.total_tasks row ∧
     0 ≤ TaskDistribution.overdue_tasks row ≤
       TaskDistribution.total_tasks row) ∧
  total (TaskDistribution.total_tasks <$> rows) =
    Z.of_nat
      (length (filter (λ t, Task.assignee_id t ≠ None) (all_tasks db))).
Proof.
  intros rows. unfold rows. rewrite task_distribution_eq.
  set (keys := remove_dups _).
  assert (NoDup keys) as Hnd by apply NoDup_remove_dups.
  assert (∀ user_id,
    user_id ∈ keys ↔
    ∃ task, task ∈ all_tasks db ∧ Task.assignee_id task = Some user_id)
    as Hkeys.
  { intros user_id. unfold keys.
    by rewrite elem_of_remove_dups, elem_of_assignees. }
  rewrite <- !list_fmap_compose.
  split_and!.
  - by rewrite list_fmap_id.
  - intros user_id. by rewrite list_fmap_id.
  - intros row (user_id & -> & Hin)%list_elem_of_fmap. cbn.
    split_and!; try done; try lia.
    + apply Hkeys in Hin as (task & Hin & Ht).
      assert (task ∈ assigned_to db user_id) as Hone
        by by apply list_elem_of_filter.
      destruct (assigned_to db user_id); [by apply elem_of_nil in Hone|].
      cbn [length]. lia.
    + apply inj_le, length_filter.
  - rewrite <- (total_of_groups keys);
      [|done|].
    + f_equal. apply list_fmap_ext. intros _ user_id _. simpl.
      unfold assigned_to. by rewrite filter_assigned_rows.
    + intros t [Ht Hin]%list_elem_of_filter.
      destruct (Task.assignee_id t) as [k|] eqn:Hk; [|done].
      exists k. split; [|done]. apply Hkeys. eauto.
Qed.

(** ** The timeline *)

Lemma newest_first_total event_created_at :
  Total (newest_first event_created_at).
Proof. intros e1 e2. unfold newest_first. lia. Qed.

Lemma newest_first_transitive event_created_at :
  Transitive (newest_first event_created_at).
Proof. intros e1 e2 e3. unfold newest_first. lia. Qed.

Lemma elem_of_timeline event_created_at utcnow days db current_user e :
  e ∈ timeline event_created_at utcnow days db current_user ↔
  e ∈ task_events (view db) ∧
  utcnow - timedelta_days days ≤ event_created_at (TaskEvent.id e) ∧
  on_task_of db current_user e.
Proof.
  unfold timeline. rewrite merge_sort_Permutation, list_elem_of_filter.
  tauto.
Qed.

(** X20: [timeline] returns the events of the last [days] days that
    belong to a task which exists and which the current user created or is
    assigned to, each as often as it is in the table, newest first.  An
    event of a task the user has no part in, or of a task that is gone, is
    never returned. *)
Theorem timeline_shows_own_recent_events
    event_created_at utcnow days db current_user :
  let l := timeline event_created_at utcnow days db current_user in
  StronglySorted (newest_first event_created_at) l ∧
  l ≡ₚ
    filter
      (λ e,
        utcnow - timedelta_days days ≤ event_created_at (TaskEvent.id e) ∧
        on_task_of db current_user e)
      (task_events (view db)) ∧
  (∀ e, e ∈ l →
     ∃ task,
       get_task (TaskEvent.task_id e) db current_user = inr task ∧
       (Task.assignee_id task = Some (User.id current_user) ∨
        Task.created_by_id task = User.id current_user)) ∧
  (∀ e, e ∈ l → e ∈ task_events (view db)).
Proof.
  intros l. unfold l. split_and!.
  - unfold timeline.
    apply (@StronglySorted_merge_sort _ _ _
             (newest_first_transitive event_created_at)
             (newest_first_total event_created_at)).
  - unfold timeline. apply merge_sort_Permutation.
  - intros e (_ & _ & Hon)%elem_of_timeline.
    unfold on_task_of in Hon. unfold get_task, query_task.
    destruct (tasks (view db) !! TaskEvent.task_id e) as [task|]; [|done].
    by exists task.
  - by intros e (? & _)%elem_of_timeline.
Qed.

(** X21: the window of [timeline].  The query parameter [days] defaults
    to 7 and is accepted only from 1 to 90; for every accepted value, no
    event older than 90 days is returned, and every event of the last day
    on a task of the current user is. *)
Theorem timeline_window event_created_at utcnow q days db current_user :
  query_days q = Some days →
  (q = None → days = 7) ∧ 1 ≤ days ≤ 90 ∧
  (∀ e, e ∈ timeline event_created_at utcnow days db current_user →
        utcnow - timedelta_days 90 ≤ event_created_at (TaskEvent.id e)) ∧
  (∀ e, e ∈ task_events (view db) →
        on_task_of db current_user e →
        utcnow - timedelta_days 1 ≤ event_created_at (TaskEvent.id e) →
        e ∈ timeline event_created_at utcnow days db current_user).
Proof.
  intros Hq.
  assert (1 ≤ days ≤ 90 ∧ (q = None → days = 7)) as [Hdays Hdefault].
  { unfold query_days in Hq. destruct q as [d|].
    - case_decide; by simplify_eq.
    - simplify_eq. split; [lia|done]. }
  split_and!; [done|lia|lia| |].
  - intros e (_ & Hsince & _)%elem_of_timeline.
    unfold timedelta_days in *. lia.
  - intros e Hin Hon Hrecent. apply elem_of_timeline.
    split_and!; [done| |done]. unfold timedelta_days in *. lia.
Qed.

Lemma timeline_window_witness :
  query_days (Some 30) = Some 30 ∧
  (∀ e, e ∈ timeline (λ key, key * 86400000000) (100 * 86400000000) 30
              (open_session office) ann →
        10 * 86400000000 ≤ TaskEvent.id e * 86400000000).
Proof.
  split; [reflexivity|].
  destruct (timeline_window (λ key, key * 86400000000) (100 * 86400000000)
              (Some 30) 30 (open_session office) ann eq_refl)
    as (_ & _ & Hold & _).
  intros e He. specialize (Hold e He). unfold timedelta_days in Hold.
  simpl in Hold. lia.
Defined.

(** ** Handing a task over *)



(** ** Examples for the read routes *)

Example office_distribution :
  task_distribution 1800000000 (open_session office) ann =
    [TaskDistribution.mk 3 1 1] ∧
  task_distribution 1600000000 (open_session office) ann =
    [TaskDistribution.mk 3 1 0].
Proof. by vm_compute. Qed.

(** ann sees the event of the task she created, cyd the events of the
    task he created and of the one he is assigned to, newest first; dan
    sees none. *)
Example office_timeline :
  (TaskEvent.id <$> timeline (λ key, key) 10 1 (open_session office) ann =
     [1]) ∧
  (TaskEvent.id <$> timeline (λ key, key) 10 1 (open_session office) cyd =
     [2; 1]) ∧
  timeline (λ key, key) 10 1 (open_session office) dan = [] ∧
  query_days None = Some 7 ∧ query_days (Some 0) = None ∧
  query_days (Some 91) = None.
Proof. by vm_compute. Qed.

Example office_dependencies :
  let db := (add_dependency 1 2 (open_session office) dan).1 in
  list_dependencies 1 db ann = [2] ∧ list_dependencies 2 db ann = [] ∧
  list_dependencies 7 db ann = [] ∧
  fails_with NotFound (get_task 7 db ann).
Proof. by vm_compute. Qed.
